(** * kubeconfig settings: projecting a Settings record into a kubeconfig document

    A shallow embedding of [pkg/minikube/kubeconfig/settings.go]:
    [Settings], [PopulateFromSettings], [Update] and the generated deep-copy
    functions of [internalExtension].

    The Go code is effectful: it reads certificate files, reads the clock,
    allocates extension objects behind pointers, mutates the document it is
    handed, takes a cross-process lock and rewrites the kubeconfig file.  All
    of that is threaded through a small state-and-error monad over an explicit
    [World]. *)

From stdpp Require Import gmap strings list fin_maps pretty.
From Stdlib Require Import Strings.Byte.

Abbreviation bytes := (list Byte.byte).

(** ** Errors *)

Inductive errno := ENOENT | EACCES | EISDIR | EIO.

(** Go [error] values that can flow through this file. *)
Inductive error :=
| PathError (op path : string) (e : errno)   (* *os.PathError of the io calls *)
| ErrTimeout                                 (* mutex.ErrTimeout *)
| ErrDecode (path : string)                  (* the loader could not parse *)
| Wrapped (cause : error) (msg : string).    (* errors.Wrap / errors.Wrapf *)

Definition errno_string (e : errno) : string :=
  match e with
  | ENOENT => "no such file or directory"
  | EACCES => "permission denied"
  | EISDIR => "is a directory"
  | EIO => "input/output error"
  end.

(** [err.Error()] *)
Fixpoint Error (err : error) : string :=
  match err with
  | PathError op path e => op +:+ " " +:+ path +:+ ": " +:+ errno_string e
  | ErrTimeout => "timeout acquiring mutex"
  | ErrDecode path => "could not read config: " +:+ path
  | Wrapped cause msg => msg +:+ ": " +:+ Error cause
  end.

(** [fmt.Sprintf] for the formats of this file, which all end in one verb:
    the literal text followed by the rendered argument. *)
Definition Sprintf_s (text arg : string) : string := text +:+ arg.

Definition errors_Wrap (err : error) (msg : string) : error := Wrapped err msg.
Definition errors_Wrapf (err : error) (text arg : string) : error :=
  Wrapped err (Sprintf_s text arg).

(** [errors.Cause]: the innermost error. *)
Fixpoint Cause (err : error) : error :=
  match err with
  | Wrapped cause _ => Cause cause
  | _ => err
  end.

(** ** The monad: state, Go errors and run-time panics *)

Inductive outcome (A : Type) :=
| Ok (a : A)            (* normal return, [err == nil] *)
| Fail (e : error)      (* return with [err != nil] *)
| Panic (why : string). (* run-time panic *)
Arguments Ok {A} a.
Arguments Fail {A} e.
Arguments Panic {A} why.

Definition M (S A : Type) : Type := S → outcome A * S.

Definition ret {S A} (a : A) : M S A := fun s => (Ok a, s).

Definition bind {S A B} (c : M S A) (k : A → M S B) : M S B :=
  fun s =>
    match c s with
    | (Ok a, s') => k a s'
    | (Fail e, s') => (Fail e, s')
    | (Panic why, s') => (Panic why, s')
    end.

Definition fail {S A} (e : error) : M S A := fun s => (Fail e, s).
Definition panic {S A} (why : string) : M S A := fun s => (Panic why, s).
Definition get {S} : M S S := fun s => (Ok s, s).
Definition modify {S} (f : S → S) : M S unit := fun s => (Ok tt, f s).

Declare Scope go_scope.
Delimit Scope go_scope with go.
Notation "x <- c ;; k" := (bind c (fun x => k))
  (at level 100, c at next level, right associativity) : go_scope.
Notation "c ;;; k" := (bind c (fun _ => k))
  (at level 100, right associativity) : go_scope.
Open Scope go_scope.

(** [v, err := c; if err != nil { return wrap(err) }] *)
Definition on_err {S A} (c : M S A) (wrap : error → error) : M S A :=
  fun s =>
    match c s with
    | (Fail e, s') => (Fail (wrap e), s')
    | r => r
    end.

(** [defer d] in front of [body]: [d] runs on every exit path of [body]; the
    outcome is the one of [body]. *)
Definition defer {S A} (d : M S unit) (body : M S A) : M S A :=
  fun s => let '(r, s') := body s in (r, (d s').2).

(** ** The world *)

(** A node of the file system: a readable and writable regular file, or a
    node on which [open] fails. *)
Inductive File :=
| Regular (content : bytes)
| Denied (e : errno).

Definition Time := nat.

(** [internalExtension] and the [runtime.TypeMeta] it inlines. *)
Record TypeMeta := mkTypeMeta { Kind : string; APIVersion : string }.

Record internalExtension := mkInternalExtension {
  TypeMeta_ : TypeMeta;
  CreatedBy : string;
  LastUpdate : string
}.

(** The zero value, what [new(internalExtension)] points to. *)
Definition zero_internalExtension : internalExtension :=
  {| TypeMeta_ := {| Kind := ""; APIVersion := "" |};
     CreatedBy := ""; LastUpdate := "" |}.

(** A [*internalExtension]: [None] is [nil], [Some l] an address in [mem]. *)
Definition loc := nat.
Abbreviation ptr := (option loc).

Inductive Event :=
| EvReadFile (path : string)
| EvWriteFile (path : string)
| EvNow (t : Time)
| EvAcquire (name : string)
| EvRelease (name : string).

Record World := mkWorld {
  disk : gmap string File;           (* the file system *)
  mem : list internalExtension;      (* extension objects, by address *)
  clock : Time;                      (* what the next time.Now() reads *)
  locks : gset string;               (* named mutexes currently held *)
  trace : list Event                 (* effects so far, oldest first *)
}.

Definition log (ev : Event) (w : World) : World :=
  {| disk := disk w; mem := mem w; clock := clock w; locks := locks w;
     trace := trace w ++ [ev] |}.

Definition set_disk (d : gmap string File) (w : World) : World :=
  {| disk := d; mem := mem w; clock := clock w; locks := locks w;
     trace := trace w |}.

Definition set_mem (h : list internalExtension) (w : World) : World :=
  {| disk := disk w; mem := h; clock := clock w; locks := locks w;
     trace := trace w |}.

Definition set_clock (t : Time) (w : World) : World :=
  {| disk := disk w; mem := mem w; clock := t; locks := locks w;
     trace := trace w |}.

Definition set_locks (l : gset string) (w : World) : World :=
  {| disk := disk w; mem := mem w; clock := clock w; locks := l;
     trace := trace w |}.

(** *** File system *)

(** What reading [path] gives on a disk. *)
Definition read_result (d : gmap string File) (path : string) : error + bytes :=
  match d !! path with
  | Some (Regular content) => inr content
  | Some (Denied e) => inl (PathError "open" path e)
  | None => inl (PathError "open" path ENOENT)
  end.

(** [ioutil.ReadFile] *)
Definition ioutil_ReadFile (path : string) : M World bytes :=
  fun w =>
    let w' := log (EvReadFile path) w in
    match read_result (disk w) path with
    | inr content => (Ok content, w')
    | inl err => (Fail err, w')
    end.

(** [os.IsNotExist] *)
Definition os_IsNotExist (err : error) : bool :=
  match err with
  | PathError _ _ ENOENT => true
  | _ => false
  end.

(** Writing a whole file: creates or truncates [path]. *)
Definition ioutil_WriteFile (path : string) (data : bytes) : M World unit :=
  fun w =>
    let w' := log (EvWriteFile path) w in
    match disk w !! path with
    | Some (Denied e) => (Fail (PathError "open" path e), w')
    | _ => (Ok tt, set_disk (<[path := Regular data]> (disk w)) w')
    end.

(** *** Clock *)

(** [time.Now()]: successive readings are strictly increasing. *)
Definition time_Now : M World Time :=
  fun w => (Ok (clock w), log (EvNow (clock w)) (set_clock (S (clock w)) w)).

(** *** Extension objects *)

(** [&internalExtension{...}] and [new(internalExtension)]: a fresh address. *)
Definition alloc (v : internalExtension) : M World ptr :=
  fun w => (Ok (Some (length (mem w))), set_mem (mem w ++ [v]) w).

(** [*p] *)
Definition load (p : ptr) : M World internalExtension :=
  fun w =>
    match p with
    | None => (Panic "nil pointer dereference", w)
    | Some l =>
        match mem w !! l with
        | Some v => (Ok v, w)
        | None => (Panic "invalid address", w)
        end
    end.

(** [*p = v] *)
Definition store (p : ptr) (v : internalExtension) : M World unit :=
  fun w =>
    match p with
    | None => (Panic "nil pointer dereference", w)
    | Some l =>
        if decide (l < length (mem w)) then (Ok tt, set_mem (<[l := v]> (mem w)) w)
        else (Panic "invalid address", w)
    end.

(** [DeepCopyInto]: [*out = *in; out.TypeMeta = in.TypeMeta]. *)
Definition DeepCopyInto (in_ out : ptr) : M World unit :=
  v <- load in_ ;;
  store out v ;;;
  vin <- load in_ ;;
  vout <- load out ;;
  store out {| TypeMeta_ := TypeMeta_ vin;
               CreatedBy := CreatedBy vout; LastUpdate := LastUpdate vout |}.

(** [DeepCopy] *)
Definition DeepCopy (in_ : ptr) : M World ptr :=
  match in_ with
  | None => ret None
  | Some _ =>
      out <- alloc zero_internalExtension ;;
      DeepCopyInto in_ out ;;;
      ret out
  end.

(** [DeepCopyObject] *)
Definition DeepCopyObject (in_ : ptr) : M World ptr :=
  c <- DeepCopy in_ ;;
  match c with
  | Some _ => ret c
  | None => ret None
  end.

(** ** The kubeconfig document

    The types of [k8s.io/client-go/tools/clientcmd/api], with the fields this
    package sets.  The constructors [NewCluster], [NewAuthInfo], [NewContext]
    and [NewConfig] give zero values with allocated, empty maps.  A document
    is one that has been loaded or made by [NewConfig]: its three maps are
    allocated, so they are plain finite maps here. *)

(** A [runtime.Object] held in an extension map: one of this package's
    extension objects, by address, or a foreign object kept as decoded. *)
Inductive runtime_Object :=
| ObjInternalExtension (p : ptr)
| ObjUnknown (raw : bytes).

Module api.

Module Cluster.
Record t := mk {
  Server : string;
  CertificateAuthority : string;
  CertificateAuthorityData : bytes;
  Extensions : gmap string runtime_Object
}.
Definition with_Server (v : string) (c : t) : t :=
  mk v (CertificateAuthority c) (CertificateAuthorityData c) (Extensions c).
Definition with_CertificateAuthority (v : string) (c : t) : t :=
  mk (Server c) v (CertificateAuthorityData c) (Extensions c).
Definition with_CertificateAuthorityData (v : bytes) (c : t) : t :=
  mk (Server c) (CertificateAuthority c) v (Extensions c).
Definition with_Extensions (v : gmap string runtime_Object) (c : t) : t :=
  mk (Server c) (CertificateAuthority c) (CertificateAuthorityData c) v.
End Cluster.

Module AuthInfo.
Record t := mk {
  ClientCertificate : string;
  ClientCertificateData : bytes;
  ClientKey : string;
  ClientKeyData : bytes
}.
Definition with_ClientCertificate (v : string) (u : t) : t :=
  mk v (ClientCertificateData u) (ClientKey u) (ClientKeyData u).
Definition with_ClientCertificateData (v : bytes) (u : t) : t :=
  mk (ClientCertificate u) v (ClientKey u) (ClientKeyData u).
Definition with_ClientKey (v : string) (u : t) : t :=
  mk (ClientCertificate u) (ClientCertificateData u) v (ClientKeyData u).
Definition with_ClientKeyData (v : bytes) (u : t) : t :=
  mk (ClientCertificate u) (ClientCertificateData u) (ClientKey u) v.
End AuthInfo.

Module Context.
Record t := mk {
  Cluster : string;
  AuthInfo : string;
  Namespace : string;
  Extensions : gmap string runtime_Object
}.
Definition with_Cluster (v : string) (c : t) : t :=
  mk v (AuthInfo c) (Namespace c) (Extensions c).
Definition with_AuthInfo (v : string) (c : t) : t :=
  mk (Cluster c) v (Namespace c) (Extensions c).
Definition with_Namespace (v : string) (c : t) : t :=
  mk (Cluster c) (AuthInfo c) v (Extensions c).
Definition with_Extensions (v : gmap string runtime_Object) (c : t) : t :=
  mk (Cluster c) (AuthInfo c) (Namespace c) v.
End Context.

Module Config.
Record t := mk {
  Clusters : gmap string Cluster.t;
  AuthInfos : gmap string AuthInfo.t;
  Contexts : gmap string Context.t;
  CurrentContext : string
}.
Definition with_Clusters (v : gmap string Cluster.t) (c : t) : t :=
  mk v (AuthInfos c) (Contexts c) (CurrentContext c).
Definition with_AuthInfos (v : gmap string AuthInfo.t) (c : t) : t :=
  mk (Clusters c) v (Contexts c) (CurrentContext c).
Definition with_Contexts (v : gmap string Context.t) (c : t) : t :=
  mk (Clusters c) (AuthInfos c) v (CurrentContext c).
Definition with_CurrentContext (v : string) (c : t) : t :=
  mk (Clusters c) (AuthInfos c) (Contexts c) v.
End Config.

Definition NewCluster : Cluster.t := Cluster.mk "" "" [] ∅.
Definition NewAuthInfo : AuthInfo.t := AuthInfo.mk "" [] "" [].
Definition NewContext : Context.t := Context.mk "" "" "" ∅.
Definition NewConfig : Config.t := Config.mk ∅ ∅ ∅ "".

End api.

(** ** Settings *)

Record Settings := mkSettings {
  ClusterName : string;
  Namespace : string;
  ClusterServerAddress : string;
  ClientCertificate : string;
  CertificateAuthority : string;
  ClientKey : string;
  KeepContext : bool;
  EmbedCerts : bool;
  kubeConfigFile : option string   (* the atomic.Value; None: nothing stored *)
}.

(** [SetPath] *)
Definition SetPath (k : Settings) (path : string) : Settings :=
  {| ClusterName := ClusterName k; Namespace := Namespace k;
     ClusterServerAddress := ClusterServerAddress k;
     ClientCertificate := ClientCertificate k;
     CertificateAuthority := CertificateAuthority k;
     ClientKey := ClientKey k; KeepContext := KeepContext k;
     EmbedCerts := EmbedCerts k; kubeConfigFile := Some path |}.

(** [filePath]: [Load().(string)] panics when nothing was stored. *)
Definition filePath {S} (k : Settings) : M S string :=
  match kubeConfigFile k with
  | Some path => ret path
  | None => panic "interface conversion: interface {} is nil, not string"
  end.

(** ** What this file uses from outside *)

(** [mutex.Spec] of github.com/juju/mutex. *)
Record mutex_Spec := mkSpec { Name : string; Delay : nat; Timeout : nat }.

(** The collaborators of [PopulateFromSettings] and [Update]. *)
Class Externals := {
  (* time.Time.String *)
  Time_String : Time → string;
  (* filepath.Join, on two elements *)
  filepath_Join : string → string → string;
  (* lock.PathMutexSpec of pkg/util/lock *)
  PathMutexSpec : string → mutex_Spec;
  (* the rendering of a mutex.Spec under the verb %+v *)
  Sprintf_Spec : mutex_Spec → string;
  (* the kubeconfig file format: parsing, and serialising a document whose
     extension objects live in memory *)
  decode : bytes → option api.Config.t;
  encode : list internalExtension → api.Config.t → bytes
}.

(** ** PopulateFromSettings *)

(** The projector runs on the world and on the document [apiCfg] points to;
    what it did to the document stays done when it returns an error. *)
Record PState := mkPState { world : World; doc : api.Config.t }.

Definition liftW {A} (c : M World A) : M PState A :=
  fun st => let '(r, w) := c (world st) in (r, {| world := w; doc := doc st |}).

Definition modify_doc (f : api.Config.t → api.Config.t) : M PState unit :=
  modify (fun st => {| world := world st; doc := f (doc st) |}).

Section Projector.

Context `{Externals}.

Definition PopulateFromSettings (cfg : Settings) : M PState unit :=
  let clusterName := ClusterName cfg in
  let cluster := api.NewCluster in
  let cluster := api.Cluster.with_Server (ClusterServerAddress cfg) cluster in
  cluster <-
    (if EmbedCerts cfg then
       data <- on_err (liftW (ioutil_ReadFile (CertificateAuthority cfg)))
                 (fun err => errors_Wrapf err "reading CertificateAuthority "
                               (CertificateAuthority cfg)) ;;
       ret (api.Cluster.with_CertificateAuthorityData data cluster)
     else
       ret (api.Cluster.with_CertificateAuthority (CertificateAuthority cfg) cluster)) ;;
  now <- liftW time_Now ;;
  let lastUpdate := Time_String now in
  ext <- liftW (alloc {| TypeMeta_ := TypeMeta_ zero_internalExtension;
                         CreatedBy := "minikube.sigs.k8s.io";
                         LastUpdate := lastUpdate |}) ;;
  c1 <- liftW (DeepCopy ext) ;;
  let cluster :=
    api.Cluster.with_Extensions {[ "cluster_info" := ObjInternalExtension c1 ]} cluster in
  modify_doc (fun d =>
    api.Config.with_Clusters (<[clusterName := cluster]> (api.Config.Clusters d)) d) ;;;
  (* user *)
  let userName := ClusterName cfg in
  let user := api.NewAuthInfo in
  user <-
    (if EmbedCerts cfg then
       cert <- on_err (liftW (ioutil_ReadFile (ClientCertificate cfg)))
                 (fun err => errors_Wrapf err "reading ClientCertificate "
                               (ClientCertificate cfg)) ;;
       let user := api.AuthInfo.with_ClientCertificateData cert user in
       key <- on_err (liftW (ioutil_ReadFile (ClientKey cfg)))
                (fun err => errors_Wrapf err "reading ClientKey " (ClientKey cfg)) ;;
       ret (api.AuthInfo.with_ClientKeyData key user)
     else
       let user := api.AuthInfo.with_ClientCertificate (ClientCertificate cfg) user in
       ret (api.AuthInfo.with_ClientKey (ClientKey cfg) user)) ;;
  modify_doc (fun d =>
    api.Config.with_AuthInfos (<[userName := user]> (api.Config.AuthInfos d)) d) ;;;
  (* context *)
  let contextName := ClusterName cfg in
  let context := api.NewContext in
  let context := api.Context.with_Cluster (ClusterName cfg) context in
  let context := api.Context.with_Namespace (Namespace cfg) context in
  let context := api.Context.with_AuthInfo userName context in
  c2 <- liftW (DeepCopy ext) ;;
  let context :=
    api.Context.with_Extensions {[ "context_info" := ObjInternalExtension c2 ]} context in
  modify_doc (fun d =>
    api.Config.with_Contexts (<[contextName := context]> (api.Config.Contexts d)) d) ;;;
  (* Only set current context if the user has not used the keepContext flag *)
  (if negb (KeepContext cfg) then
     modify_doc (api.Config.with_CurrentContext (ClusterName cfg))
   else ret tt) ;;;
  ret tt.

End Projector.

(** ** Update *)

(** [mutex.Acquire]: the name is taken unless some process holds it, in which
    case the wait ends in [ErrTimeout].  The releaser is the name held. *)
Definition mutex_Acquire (spec : mutex_Spec) : M World string :=
  fun w =>
    if decide (Name spec ∈ locks w) then (Fail ErrTimeout, w)
    else (Ok (Name spec),
          log (EvAcquire (Name spec)) (set_locks ({[ Name spec ]} ∪ locks w) w)).

(** [releaser.Release()] *)
Definition Release (releaser : string) : M World unit :=
  fun w => (Ok tt, log (EvRelease releaser) (set_locks (locks w ∖ {[ releaser ]}) w)).

Section Orchestrator.

Context `{Externals}.

(** Modelled from the spec: [readOrNew], of this package's kubeconfig.go,
    is not part of the sources at hand.  "Load the document from the target
    path if it exists and parses; otherwise synthesize an empty document.  A
    parse failure of an existing file is a fatal error (not silently
    replaced with empty): only a missing file falls back to empty." *)
Definition readOrNew (configPath : string) : M World api.Config.t :=
  fun w =>
    match ioutil_ReadFile configPath w with
    | (Ok data, w') =>
        match decode data with
        | Some kcfg => (Ok kcfg, w')
        | None => (Fail (ErrDecode configPath), w')
        end
    | (Fail err, w') =>
        if os_IsNotExist err then (Ok api.NewConfig, w')
        else (Fail err, w')
    | (Panic why, w') => (Panic why, w')
    end.

(** Modelled from the spec: [writeToFile], of this package's kubeconfig.go,
    is not part of the sources at hand.  "Persist the mutated document back
    to the same path", failing cleanly. *)
Definition writeToFile (config : api.Config.t) (path : string) : M World unit :=
  fun w => ioutil_WriteFile path (encode (mem w) config) w.

(** [err = PopulateFromSettings(kcs, kcfg)] on the document [kcfg] that
    [Update] holds: the call runs on the world, and the document it leaves is
    handed on. *)
Definition call_PopulateFromSettings (kcs : Settings) (kcfg : api.Config.t)
  : M World api.Config.t :=
  fun w =>
    match PopulateFromSettings kcs {| world := w; doc := kcfg |} with
    | (Ok _, st) => (Ok (doc st), world st)
    | (Fail e, st) => (Fail e, world st)
    | (Panic why, st) => (Panic why, world st)
    end.

(** [Update].  The lock is taken before the deferred release is in place, so
    a failed acquisition returns without releasing; the klog lines are left
    out. *)
Definition Update (kcs : Settings) : M World unit :=
  path <- filePath kcs ;;
  let spec := PathMutexSpec (filepath_Join path "settings.Update") in
  releaser <- on_err (mutex_Acquire spec)
                (fun err => errors_Wrapf err "unable to acquire lock for "
                              (Sprintf_Spec spec)) ;;
  defer (Release releaser)
    ((* read existing config or create new if does not exist *)
     path <- filePath kcs ;;
     kcfg <- readOrNew path ;;
     kcfg <- call_PopulateFromSettings kcs kcfg ;;
     (* write back to disk *)
     path <- filePath kcs ;;
     on_err (writeToFile kcfg path)
       (fun err => errors_Wrap err "writing kubeconfig")).

End Orchestrator.

(** ** Observations and closed forms

    What the proofs below say about traces, and the states the projector
    leaves at each of its exits. *)

(** The clock readings, the file writes and the file reads of a trace. *)
Definition readings (tr : list Event) : list Time :=
  omap (λ ev, match ev with EvNow t => Some t | _ => None end) tr.

Definition writes (tr : list Event) : list string :=
  omap (λ ev, match ev with EvWriteFile p => Some p | _ => None end) tr.

Definition reads (tr : list Event) : list string :=
  omap (λ ev, match ev with EvReadFile p => Some p | _ => None end) tr.

(** The world once the named lock is taken, and once it is given back. *)
Definition acquired (name : string) (w : World) : World :=
  log (EvAcquire name) (set_locks ({[ name ]} ∪ locks w) w).

Definition released (name : string) (w : World) : World :=
  log (EvRelease name) (set_locks (locks w ∖ {[ name ]}) w).

Section Forms.

Context `{Externals}.

(** The extension blob of a call whose clock reading was [t]. *)
Definition stamp (t : Time) : internalExtension :=
  {| TypeMeta_ := TypeMeta_ zero_internalExtension;
     CreatedBy := "minikube.sigs.k8s.io";
     LastUpdate := Time_String t |}.

(** The world after lines 89-95: the clock read, the blob allocated and
    copied once. *)
Definition stamped (w : World) : World :=
  {| disk := disk w;
     mem := mem w ++ [stamp (clock w); stamp (clock w)];
     clock := S (clock w);
     locks := locks w;
     trace := trace w ++ [EvNow (clock w)] |}.

(** The world after the second copy, line 122. *)
Definition copied (e : internalExtension) (w : World) : World :=
  set_mem (mem w ++ [e]) w.

(** The entries a call writes. *)
Definition entry_context (cfg : Settings) (c2 : loc) : api.Context.t :=
  api.Context.mk (ClusterName cfg) (ClusterName cfg) (Namespace cfg)
    {[ "context_info" := ObjInternalExtension (Some c2) ]}.

Definition entry_cluster (cfg : Settings) (path : string) (data : bytes) (c1 : loc)
  : api.Cluster.t :=
  api.Cluster.mk (ClusterServerAddress cfg) path data
    {[ "cluster_info" := ObjInternalExtension (Some c1) ]}.

(** The document after a call that ran to its end. *)
Definition projected (cfg : Settings) (d : api.Config.t)
    (cl : api.Cluster.t) (u : api.AuthInfo.t) (ctx : api.Context.t) : api.Config.t :=
  let name := ClusterName cfg in
  {| api.Config.Clusters := <[name := cl]> (api.Config.Clusters d);
     api.Config.AuthInfos := <[name := u]> (api.Config.AuthInfos d);
     api.Config.Contexts := <[name := ctx]> (api.Config.Contexts d);
     api.Config.CurrentContext :=
       if KeepContext cfg then api.Config.CurrentContext d else name |}.

(** The state in which the credential stage starts when certificates are
    embedded and the authority file held [ca]. *)
Definition cluster_written (cfg : Settings) (ca : bytes) (st : PState) : PState :=
  {| world := stamped (log (EvReadFile (CertificateAuthority cfg)) (world st));
     doc := api.Config.with_Clusters
              (<[ClusterName cfg :=
                   entry_cluster cfg "" ca (S (length (mem (world st))))]>
                 (api.Config.Clusters (doc st))) (doc st) |}.

(** Every way [PopulateFromSettings] can end. *)
Inductive populate_end (cfg : Settings) (st : PState) : outcome unit → PState → Prop :=
| end_plain :
    EmbedCerts cfg = false →
    populate_end cfg st (Ok tt)
      {| world := copied (stamp (clock (world st))) (stamped (world st));
         doc := projected cfg (doc st)
                  (entry_cluster cfg (CertificateAuthority cfg) []
                     (S (length (mem (world st)))))
                  (api.AuthInfo.mk (ClientCertificate cfg) [] (ClientKey cfg) [])
                  (entry_context cfg (S (S (length (mem (world st)))))) |}
| end_embed ca cert key :
    EmbedCerts cfg = true →
    read_result (disk (world st)) (CertificateAuthority cfg) = inr ca →
    read_result (disk (world st)) (ClientCertificate cfg) = inr cert →
    read_result (disk (world st)) (ClientKey cfg) = inr key →
    populate_end cfg st (Ok tt)
      {| world := copied (stamp (clock (world st)))
                    (log (EvReadFile (ClientKey cfg))
                       (log (EvReadFile (ClientCertificate cfg))
                          (world (cluster_written cfg ca st))));
         doc := projected cfg (doc st)
                  (entry_cluster cfg "" ca (S (length (mem (world st)))))
                  (api.AuthInfo.mk "" cert "" key)
                  (entry_context cfg (S (S (length (mem (world st)))))) |}
| end_ca_fail err :
    EmbedCerts cfg = true →
    read_result (disk (world st)) (CertificateAuthority cfg) = inl err →
    populate_end cfg st
      (Fail (errors_Wrapf err "reading CertificateAuthority " (CertificateAuthority cfg)))
      {| world := log (EvReadFile (CertificateAuthority cfg)) (world st);
         doc := doc st |}
| end_cert_fail ca err :
    EmbedCerts cfg = true →
    read_result (disk (world st)) (CertificateAuthority cfg) = inr ca →
    read_result (disk (world st)) (ClientCertificate cfg) = inl err →
    populate_end cfg st
      (Fail (errors_Wrapf err "reading ClientCertificate " (ClientCertificate cfg)))
      {| world := log (EvReadFile (ClientCertificate cfg))
                    (world (cluster_written cfg ca st));
         doc := doc (cluster_written cfg ca st) |}
| end_key_fail ca cert err :
    EmbedCerts cfg = true →
    read_result (disk (world st)) (CertificateAuthority cfg) = inr ca →
    read_result (disk (world st)) (ClientCertificate cfg) = inr cert →
    read_result (disk (world st)) (ClientKey cfg) = inl err →
    populate_end cfg st
      (Fail (errors_Wrapf err "reading ClientKey " (ClientKey cfg)))
      {| world := log (EvReadFile (ClientKey cfg))
                    (log (EvReadFile (ClientCertificate cfg))
                       (world (cluster_written cfg ca st)));
         doc := doc (cluster_written cfg ca st) |}.

(** The name of the lock [Update] takes for the file at [path]. *)
Definition lock_name (path : string) : string :=
  Name (PathMutexSpec (filepath_Join path "settings.Update")).

(** What [Update] runs between taking and releasing the lock. *)
Definition locked_body (kcs : Settings) (path : string) : M World unit :=
  kcfg <- readOrNew path ;;
  kcfg <- call_PopulateFromSettings kcs kcfg ;;
  on_err (writeToFile kcfg path) (fun err => errors_Wrap err "writing kubeconfig").

End Forms.

(** ** Sample inputs

    One concrete set of collaborators, settings, disks and documents, on which
    the statements below are run. *)

(** Collaborators: decimal timestamps, paths joined with a slash, a lock named
    after the path, and a file format in which only the empty file parses. *)
Definition sample_externals : Externals :=
  {| Time_String := λ t, pretty t;
     filepath_Join := λ dir elem, dir +:+ "/" +:+ elem;
     PathMutexSpec := λ path, {| Name := path; Delay := 1; Timeout := 60 |};
     Sprintf_Spec := λ spec, "{Name:" +:+ Name spec +:+ "}";
     decode := λ data, match data with [] => Some api.NewConfig | _ => None end;
     encode := λ _ _, [x7b; x7d] |}.

Definition sample_settings (keep embed : bool) : Settings :=
  {| ClusterName := "minikube"; Namespace := "default";
     ClusterServerAddress := "https://192.168.49.2:8443";
     ClientCertificate := "/certs/client.crt";
     CertificateAuthority := "/certs/ca.crt";
     ClientKey := "/certs/client.key";
     KeepContext := keep; EmbedCerts := embed;
     kubeConfigFile := Some "/kube/config" |}.

Definition settings_by_path : Settings := sample_settings false false.
Definition settings_embed : Settings := sample_settings false true.
Definition settings_embed_keep : Settings := sample_settings true true.

Definition sample_world (d : gmap string File) : World :=
  {| disk := d; mem := []; clock := 42; locks := ∅; trace := [] |}.

(** All three certificate files; the key missing; only a kubeconfig that does
    not parse. *)
Definition disk_all : gmap string File :=
  {[ "/certs/ca.crt" := Regular [x01]; "/certs/client.crt" := Regular [x02];
     "/certs/client.key" := Regular [x03] ]}.

Definition disk_no_key : gmap string File :=
  {[ "/certs/ca.crt" := Regular [x01]; "/certs/client.crt" := Regular [x02] ]}.

Definition disk_garbled : gmap string File :=
  {[ "/kube/config" := Regular [x3a] ]}.

(** A document that already holds a cluster, a user and a context named
    "other", the latter current. *)
Definition sample_doc : api.Config.t :=
  {| api.Config.Clusters :=
       {[ "other" := api.Cluster.mk "https://10.0.0.1" "/o/ca.crt" [] ∅ ]};
     api.Config.AuthInfos :=
       {[ "other" := api.AuthInfo.mk "/o/c.crt" [] "/o/c.key" [] ]};
     api.Config.Contexts := {[ "other" := api.Context.mk "other" "other" "" ∅ ]};
     api.Config.CurrentContext := "other" |}.

Definition sample_state (d : gmap string File) : PState :=
  {| world := sample_world d; doc := sample_doc |}.

Definition state_all : PState := sample_state disk_all.
Definition state_no_key : PState := sample_state disk_no_key.
Definition state_bare : PState := sample_state ∅.

(** The states two successful sample calls leave. *)
Definition after_embed : PState :=
  (PopulateFromSettings (H := sample_externals) settings_embed state_all).2.
Definition after_embed_keep : PState :=
  (PopulateFromSettings (H := sample_externals) settings_embed_keep state_all).2.

(** The worlds on which [Update] is run: no kubeconfig and no client key; a
    kubeconfig that does not parse. *)
Definition world_no_key : World := sample_world disk_no_key.
Definition world_garbled : World := sample_world disk_garbled.

(** The lock [Update] takes for the sample kubeconfig, the world once it has
    found no kubeconfig to load, and what [Update] does from there. *)
Definition sample_lock : string := lock_name (H := sample_externals) "/kube/config".

Definition world_loaded : World :=
  log (EvReadFile "/kube/config") (acquired sample_lock world_no_key).

Definition sample_rest : outcome unit * World :=
  (kcfg <- call_PopulateFromSettings (H := sample_externals) settings_embed api.NewConfig ;;
   on_err (writeToFile (H := sample_externals) kcfg "/kube/config")
     (fun err => errors_Wrap err "writing kubeconfig")) world_loaded.

(** ** Further observations and samples *)

(** The effects a complete call makes, in order, from a clock at [now]. *)
Definition script (cfg : Settings) (now : Time) : list Event :=
  if EmbedCerts cfg then
    [EvReadFile (CertificateAuthority cfg); EvNow now;
     EvReadFile (ClientCertificate cfg); EvReadFile (ClientKey cfg)]
  else [EvNow now].

(** The events of the lock collaborator. *)
Definition lock_event (ev : Event) : Prop :=
  match ev with
  | EvAcquire _ | EvRelease _ => True
  | _ => False
  end.

(** A world holding two extension objects. *)
Definition sample_blob : internalExtension :=
  {| TypeMeta_ := {| Kind := "Extension"; APIVersion := "v1" |};
     CreatedBy := "minikube.sigs.k8s.io"; LastUpdate := "7" |}.

Definition world_two_objects : World :=
  {| disk := ∅; mem := [sample_blob; zero_internalExtension];
     clock := 0; locks := ∅; trace := [] |}.

(** Settings for a second cluster, and settings whose path was never set. *)
Definition settings_second : Settings :=
  {| ClusterName := "second"; Namespace := "";
     ClusterServerAddress := "https://10.0.0.2:8443";
     ClientCertificate := "/second/client.crt";
     CertificateAuthority := "/second/ca.crt";
     ClientKey := "/second/client.key";
     KeepContext := true; EmbedCerts := false;
     kubeConfigFile := Some "/kube/config" |}.

Definition settings_no_path : Settings :=
  {| ClusterName := "minikube"; Namespace := "default";
     ClusterServerAddress := "https://192.168.49.2:8443";
     ClientCertificate := "/certs/client.crt";
     CertificateAuthority := "/certs/ca.crt";
     ClientKey := "/certs/client.key";
     KeepContext := false; EmbedCerts := false;
     kubeConfigFile := None |}.

(** A document with stale entries under "minikube". *)
Definition stale_doc : api.Config.t :=
  {| api.Config.Clusters :=
       <[ "minikube" := api.Cluster.mk "https://old:1" "/old/ca.crt" [x09]
                          {[ "stale" := ObjUnknown [x00] ]} ]>
         (api.Config.Clusters sample_doc);
     api.Config.AuthInfos :=
       <[ "minikube" := api.AuthInfo.mk "/old/c.crt" [x09] "/old/c.key" [x09] ]>
         (api.Config.AuthInfos sample_doc);
     api.Config.Contexts :=
       <[ "minikube" := api.Context.mk "gone" "gone" "old" ∅ ]>
         (api.Config.Contexts sample_doc);
     api.Config.CurrentContext := "other" |}.

Definition after_stale : PState :=
  (PopulateFromSettings (H := sample_externals) settings_embed
     {| world := sample_world disk_all; doc := stale_doc |}).2.

(** Two calls in a row, under "minikube" and then under "second". *)
Definition after_first : PState :=
  (PopulateFromSettings (H := sample_externals) settings_by_path state_bare).2.
Definition after_second : PState :=
  (PopulateFromSettings (H := sample_externals) settings_second after_first).2.

(** A world in which another process holds the lock, and one in which the
    kubeconfig can be neither opened nor created. *)
Definition world_busy : World :=
  {| disk := ∅; mem := []; clock := 42; locks := {[ sample_lock ]}; trace := [] |}.

Definition world_no_dir : World :=
  sample_world {[ "/kube/config" := Denied ENOENT ]}.

Definition world_no_dir_loaded : World :=
  log (EvReadFile "/kube/config") (acquired sample_lock world_no_dir).

Definition after_no_dir : PState :=
  (PopulateFromSettings (H := sample_externals) settings_by_path
     {| world := world_no_dir_loaded; doc := api.NewConfig |}).2.

(** ** Running the primitives *)
Lemma bind_Ok {S A B} (c : M S A) (k : A → M S B) s a s' :
  c s = (Ok a, s') → bind c k s = k a s'.
Proof. intros E. unfold bind. by rewrite E. Qed.

Lemma bind_Fail {S A B} (c : M S A) (k : A → M S B) s e s' :
  c s = (Fail e, s') → bind c k s = (Fail e, s').
Proof. intros E. unfold bind. by rewrite E. Qed.

Lemma load_valid w l v : mem w !! l = Some v → load (Some l) w = (Ok v, w).
Proof. intros E. unfold load. by rewrite E. Qed.

Lemma store_valid w l v :
  l < length (mem w) →
  store (Some l) v w = (Ok tt, set_mem (<[l := v]> (mem w)) w).
Proof. intros E. unfold store. by rewrite decide_True. Qed.

(** A copy of a live object is a fresh object with the same content. *)
Lemma DeepCopy_valid w l v :
  mem w !! l = Some v →
  DeepCopy (Some l) w = (Ok (Some (length (mem w))), set_mem (mem w ++ [v]) w).
Proof.
  intros Hl. unfold DeepCopy, DeepCopyInto.
  set (w1 := set_mem (mem w ++ [zero_internalExtension]) w).
  assert (Hin : mem w1 !! l = Some v) by (by apply lookup_app_l_Some).
  assert (Hlt : length (mem w) < length (mem w1)).
  { unfold w1; simpl. rewrite length_app; simpl; lia. }
  rewrite (bind_Ok _ _ w _ w1 eq_refl).
  set (w2 := set_mem (<[length (mem w) := v]> (mem w1)) w1).
  assert (Hm2 : mem w2 = mem w ++ [v]).
  { unfold w2, w1; simpl. rewrite insert_app_r_alt; [|lia].
    by rewrite Nat.sub_diag. }
  erewrite (bind_Ok (bind _ _)); last first.
  { rewrite (bind_Ok _ _ _ _ _ (load_valid _ _ _ Hin)).
    rewrite (bind_Ok _ _ _ _ _ (store_valid _ _ v Hlt)). fold w2.
    assert (Hin2 : mem w2 !! l = Some v) by (rewrite Hm2; by apply lookup_app_l_Some).
    assert (Hout2 : mem w2 !! length (mem w) = Some v).
    { rewrite Hm2, lookup_app_r; [|lia]. by rewrite Nat.sub_diag. }
    rewrite (bind_Ok _ _ _ _ _ (load_valid _ _ _ Hin2)).
    rewrite (bind_Ok _ _ _ _ _ (load_valid _ _ _ Hout2)).
    apply store_valid. rewrite Hm2, length_app; simpl; lia. }
  unfold ret. f_equal.
  destruct w as [d h c lk tr], v as [tm cb lu]; unfold set_mem; simpl in *.
  f_equal. rewrite Hm2. rewrite insert_app_r_alt; [|lia]. by rewrite Nat.sub_diag.
Qed.

Ltac norm := cbn [world doc mem log set_clock set_mem set_disk set_locks clock disk locks trace].

Lemma lock_round_trip (name : string) (held : gset string) :
  name ∉ held → ({[ name ]} ∪ held) ∖ {[ name ]} = held.
Proof.
  intros Hn. apply set_eq. intros x.
  rewrite elem_of_difference, elem_of_union, elem_of_singleton.
  split; [tauto|]. intros Hx. split; [tauto|]. congruence.
Qed.

Section Runs.

Context `{Externals}.

Lemma liftW_eq {A} (c : M World A) st r w' :
  c (world st) = (r, w') → liftW c st = (r, {| world := w'; doc := doc st |}).
Proof. intros E. unfold liftW. by rewrite E. Qed.

Lemma ReadFile_eq path w :
  ioutil_ReadFile path w =
    (match read_result (disk w) path with
     | inr content => Ok content
     | inl err => Fail err
     end, log (EvReadFile path) w).
Proof. unfold ioutil_ReadFile. by destruct (read_result _ _). Qed.

Lemma read_ok st path content wrap :
  read_result (disk (world st)) path = inr content →
  on_err (liftW (ioutil_ReadFile path)) wrap st
  = (Ok content, {| world := log (EvReadFile path) (world st); doc := doc st |}).
Proof.
  intros E. unfold on_err, liftW. by rewrite ReadFile_eq, E.
Qed.

Lemma read_fail st path err wrap :
  read_result (disk (world st)) path = inl err →
  on_err (liftW (ioutil_ReadFile path)) wrap st
  = (Fail (wrap err), {| world := log (EvReadFile path) (world st); doc := doc st |}).
Proof.
  intros E. unfold on_err, liftW. by rewrite ReadFile_eq, E.
Qed.

Lemma read_result_inl d path err :
  read_result d path = inl err → ∃ e, err = PathError "open" path e.
Proof.
  unfold read_result. destruct (d !! path) as [[c|e]|]; intros E; simplify_eq; eauto.
Qed.

Lemma read_result_regular d path content :
  d !! path = Some (Regular content) → read_result d path = inr content.
Proof. intros E. unfold read_result. by rewrite E. Qed.

Lemma writes_snoc tr ev :
  writes (tr ++ [ev]) = writes tr ++ writes [ev].
Proof. apply omap_app. Qed.

Lemma readings_snoc tr ev :
  readings (tr ++ [ev]) = readings tr ++ readings [ev].
Proof. apply omap_app. Qed.

Lemma stamped_length w : length (mem (stamped w)) = S (S (length (mem w))).
Proof. unfold stamped; norm. rewrite length_app. simpl. lia. Qed.

(** Lines 89-96: the clock is read, the blob built and copied, and the
    cluster entry written. *)
Lemma stage_cluster (cl : api.Cluster.t) (k : ptr → ptr → M PState unit) cfg st :
  (now <- liftW time_Now ;;
   ext <- liftW (alloc {| TypeMeta_ := TypeMeta_ zero_internalExtension;
                          CreatedBy := "minikube.sigs.k8s.io";
                          LastUpdate := Time_String now |}) ;;
   c1 <- liftW (DeepCopy ext) ;;
   modify_doc (fun d =>
     api.Config.with_Clusters
       (<[ClusterName cfg :=
            api.Cluster.with_Extensions
              {[ "cluster_info" := ObjInternalExtension c1 ]} cl]>
          (api.Config.Clusters d)) d) ;;;
   k ext c1) st
  = k (Some (length (mem (world st)))) (Some (S (length (mem (world st)))))
      {| world := stamped (world st);
         doc := api.Config.with_Clusters
                  (<[ClusterName cfg :=
                       api.Cluster.with_Extensions
                         {[ "cluster_info" :=
                              ObjInternalExtension (Some (S (length (mem (world st))))) ]} cl]>
                     (api.Config.Clusters (doc st))) (doc st) |}.
Proof.
  destruct st as [w d].
  unfold bind at 1. unfold liftW at 1, time_Now at 1.
  unfold bind at 1. unfold liftW at 1, alloc at 1. norm.
  erewrite bind_Ok; last first.
  { apply liftW_eq. apply (DeepCopy_valid _ _ (stamp (clock w))).
    norm. rewrite lookup_app_r; [|lia]. by rewrite Nat.sub_diag. }
  norm. unfold bind at 1. unfold modify_doc at 1, modify at 1. norm.
  rewrite length_app, Nat.add_1_r. cbn [length].
  f_equal. f_equal. unfold stamped, set_mem. norm.
  by rewrite <- app_assoc.
Qed.

(** Lines 116-130: the blob is copied again, the context entry written and
    the current context set. *)
Lemma stage_context cfg st l e :
  mem (world st) !! l = Some e →
  (c2 <- liftW (DeepCopy (Some l)) ;;
   modify_doc (fun d =>
     api.Config.with_Contexts
       (<[ClusterName cfg :=
            api.Context.with_Extensions
              {[ "context_info" := ObjInternalExtension c2 ]}
              (api.Context.with_AuthInfo (ClusterName cfg)
                 (api.Context.with_Namespace (Namespace cfg)
                    (api.Context.with_Cluster (ClusterName cfg) api.NewContext)))]>
          (api.Config.Contexts d)) d) ;;;
   (if negb (KeepContext cfg) then
      modify_doc (api.Config.with_CurrentContext (ClusterName cfg))
    else ret tt) ;;;
   ret tt) st
  = (Ok tt,
     {| world := copied e (world st);
        doc := {| api.Config.Clusters := api.Config.Clusters (doc st);
                  api.Config.AuthInfos := api.Config.AuthInfos (doc st);
                  api.Config.Contexts :=
                    <[ClusterName cfg := entry_context cfg (length (mem (world st)))]>
                      (api.Config.Contexts (doc st));
                  api.Config.CurrentContext :=
                    if KeepContext cfg then api.Config.CurrentContext (doc st)
                    else ClusterName cfg |} |}).
Proof.
  intros Hl. destruct st as [w d]; norm.
  erewrite bind_Ok; last first.
  { apply liftW_eq. norm. by apply DeepCopy_valid. }
  norm. unfold bind at 1. unfold modify_doc at 1, modify at 1. norm.
  destruct (KeepContext cfg); reflexivity.
Qed.

(** *** The five exits of [PopulateFromSettings] *)
Lemma run_plain cfg st :
  EmbedCerts cfg = false →
  let n := length (mem (world st)) in
  PopulateFromSettings cfg st =
    (Ok tt,
     {| world := copied (stamp (clock (world st))) (stamped (world st));
        doc := projected cfg (doc st)
                 (entry_cluster cfg (CertificateAuthority cfg) [] (S n))
                 (api.AuthInfo.mk (ClientCertificate cfg) [] (ClientKey cfg) [])
                 (entry_context cfg (S (S n))) |}).
Proof.
  intros He n. unfold PopulateFromSettings. rewrite He.
  unfold bind at 1. unfold ret at 1.
  rewrite stage_cluster.
  unfold bind at 1. unfold ret at 1.
  unfold bind at 1. unfold modify_doc at 1, modify at 1. norm.
  rewrite (stage_context _ _ _ (stamp (clock (world st)))); norm.
  2: { unfold stamped; norm. rewrite lookup_app_r; [|lia]. by rewrite Nat.sub_diag. }
  rewrite stamped_length. reflexivity.
Qed.

Lemma run_ca_fail cfg st err :
  EmbedCerts cfg = true →
  read_result (disk (world st)) (CertificateAuthority cfg) = inl err →
  PopulateFromSettings cfg st =
    (Fail (errors_Wrapf err "reading CertificateAuthority " (CertificateAuthority cfg)),
     {| world := log (EvReadFile (CertificateAuthority cfg)) (world st);
        doc := doc st |}).
Proof.
  intros He Hca. unfold PopulateFromSettings. rewrite He.
  apply bind_Fail. apply bind_Fail. by rewrite (read_fail _ _ err).
Qed.

Lemma run_cert_fail cfg st ca err :
  EmbedCerts cfg = true →
  read_result (disk (world st)) (CertificateAuthority cfg) = inr ca →
  read_result (disk (world st)) (ClientCertificate cfg) = inl err →
  PopulateFromSettings cfg st =
    (Fail (errors_Wrapf err "reading ClientCertificate " (ClientCertificate cfg)),
     {| world := log (EvReadFile (ClientCertificate cfg)) (world (cluster_written cfg ca st));
        doc := doc (cluster_written cfg ca st) |}).
Proof.
  intros He Hca Hcert. unfold PopulateFromSettings. rewrite He.
  erewrite bind_Ok; last first.
  { erewrite bind_Ok; [|by apply read_ok]. reflexivity. }
  rewrite stage_cluster. norm.
  apply bind_Fail. apply bind_Fail. by rewrite (read_fail _ _ err).
Qed.

Lemma run_key_fail cfg st ca cert err :
  EmbedCerts cfg = true →
  read_result (disk (world st)) (CertificateAuthority cfg) = inr ca →
  read_result (disk (world st)) (ClientCertificate cfg) = inr cert →
  read_result (disk (world st)) (ClientKey cfg) = inl err →
  PopulateFromSettings cfg st =
    (Fail (errors_Wrapf err "reading ClientKey " (ClientKey cfg)),
     {| world := log (EvReadFile (ClientKey cfg))
                   (log (EvReadFile (ClientCertificate cfg))
                      (world (cluster_written cfg ca st)));
        doc := doc (cluster_written cfg ca st) |}).
Proof.
  intros He Hca Hcert Hkey. unfold PopulateFromSettings. rewrite He.
  erewrite bind_Ok; last first.
  { erewrite bind_Ok; [|by apply read_ok]. reflexivity. }
  rewrite stage_cluster. norm.
  apply bind_Fail.
  erewrite bind_Ok; [|by apply read_ok].
  apply bind_Fail. by rewrite (read_fail _ _ err).
Qed.

Lemma run_embed cfg st ca cert key :
  EmbedCerts cfg = true →
  read_result (disk (world st)) (CertificateAuthority cfg) = inr ca →
  read_result (disk (world st)) (ClientCertificate cfg) = inr cert →
  read_result (disk (world st)) (ClientKey cfg) = inr key →
  let n := length (mem (world st)) in
  PopulateFromSettings cfg st =
    (Ok tt,
     {| world := copied (stamp (clock (world st)))
                   (log (EvReadFile (ClientKey cfg))
                      (log (EvReadFile (ClientCertificate cfg))
                         (world (cluster_written cfg ca st))));
        doc := projected cfg (doc st)
                 (entry_cluster cfg "" ca (S n))
                 (api.AuthInfo.mk "" cert "" key)
                 (entry_context cfg (S (S n))) |}).
Proof.
  intros He Hca Hcert Hkey n. unfold PopulateFromSettings. rewrite He.
  erewrite bind_Ok; last first.
  { erewrite bind_Ok; [|by apply read_ok]. reflexivity. }
  rewrite stage_cluster. norm.
  erewrite bind_Ok; last first.
  { erewrite bind_Ok; [|by apply read_ok].
    erewrite bind_Ok; [|by apply read_ok]. reflexivity. }
  unfold bind at 1. unfold modify_doc at 1, modify at 1. norm.
  rewrite (stage_context _ _ _ (stamp (clock (world st)))); norm.
  2: { unfold stamped; norm. rewrite lookup_app_r; [|lia]. by rewrite Nat.sub_diag. }
  rewrite stamped_length. reflexivity.
Qed.

Lemma populate_ends cfg st :
  populate_end cfg st (PopulateFromSettings cfg st).1 (PopulateFromSettings cfg st).2.
Proof.
  destruct (EmbedCerts cfg) eqn:He.
  - destruct (read_result (disk (world st)) (CertificateAuthority cfg)) as [e1|ca] eqn:Hca.
    { rewrite (run_ca_fail _ _ _ He Hca). by constructor. }
    destruct (read_result (disk (world st)) (ClientCertificate cfg)) as [e2|cert] eqn:Hcert.
    { rewrite (run_cert_fail _ _ _ _ He Hca Hcert). by constructor. }
    destruct (read_result (disk (world st)) (ClientKey cfg)) as [e3|key] eqn:Hkey.
    { rewrite (run_key_fail _ _ _ _ _ He Hca Hcert Hkey). by econstructor. }
    rewrite (run_embed _ _ _ _ _ He Hca Hcert Hkey). by constructor.
  - rewrite (run_plain _ _ He). by constructor.
Qed.

Lemma populate_inv cfg st r st' :
  PopulateFromSettings cfg st = (r, st') → populate_end cfg st r st'.
Proof. intros E. generalize (populate_ends cfg st). by rewrite E. Qed.

(** The projector writes no file and leaves the disk and the locks alone. *)
Lemma populate_end_disk cfg st r st' :
  populate_end cfg st r st' →
  disk (world st') = disk (world st) ∧
  locks (world st') = locks (world st) ∧
  writes (trace (world st')) = writes (trace (world st)).
Proof.
  destruct 1; unfold copied, cluster_written, stamped; norm;
    rewrite ?writes_snoc, ?app_nil_r; cbn [writes omap]; rewrite ?app_nil_r; done.
Qed.

Lemma success_shape cfg st st' :
  PopulateFromSettings cfg st = (Ok tt, st') →
  ∃ cl u,
    doc st' = projected cfg (doc st) cl u
                (entry_context cfg (S (S (length (mem (world st)))))) ∧
    api.Cluster.Extensions cl =
      {[ "cluster_info" := ObjInternalExtension (Some (S (length (mem (world st))))) ]} ∧
    mem (world st') =
      mem (world st) ++ [stamp (clock (world st)); stamp (clock (world st));
                         stamp (clock (world st))] ∧
    readings (trace (world st')) = readings (trace (world st)) ++ [clock (world st)].
Proof.
  intros E. apply populate_inv in E. inversion E; subst; clear E.
  - eexists _, _. split; [reflexivity|]. split; [reflexivity|].
    unfold copied, stamped; norm. split; [by rewrite <- app_assoc|].
    by rewrite readings_snoc.
  - eexists _, _. split; [reflexivity|]. split; [reflexivity|].
    unfold copied, cluster_written, stamped; norm. split; [by rewrite <- app_assoc|].
    rewrite !readings_snoc. cbn [readings omap]. by rewrite !app_nil_r.
Qed.

Lemma populate_read_failure cfg st path err :
  EmbedCerts cfg = true →
  path ∈ [CertificateAuthority cfg; ClientCertificate cfg; ClientKey cfg] →
  read_result (disk (world st)) path = inl err →
  ∃ e st' p' en,
    PopulateFromSettings cfg st = (Fail e, st') ∧
    p' ∈ [CertificateAuthority cfg; ClientCertificate cfg; ClientKey cfg] ∧
    Cause e = PathError "open" p' en.
Proof.
  intros He Hin Hrd.
  destruct (PopulateFromSettings cfg st) as [r st'] eqn:E.
  pose proof (populate_inv _ _ _ _ E) as Hend.
  inversion Hend; subst; clear Hend; try congruence.
  - exfalso. rewrite !elem_of_cons, elem_of_nil in Hin.
    destruct Hin as [->|[->|[->|[]]]]; congruence.
  - match goal with Hf : read_result _ _ = inl _ |- _ =>
      destruct (read_result_inl _ _ _ Hf) as [en ->] end.
    eexists _, _, (CertificateAuthority cfg), en. split; [done|].
    split; [rewrite !elem_of_cons; tauto|done].
  - match goal with Hf : read_result _ _ = inl _ |- _ =>
      destruct (read_result_inl _ _ _ Hf) as [en ->] end.
    eexists _, _, (ClientCertificate cfg), en. split; [done|].
    split; [rewrite !elem_of_cons; tauto|done].
  - match goal with Hf : read_result _ (ClientKey cfg) = inl _ |- _ =>
      destruct (read_result_inl _ _ _ Hf) as [en ->] end.
    eexists _, _, (ClientKey cfg), en. split; [done|].
    split; [rewrite !elem_of_cons; tauto|done].
Qed.

(** *** [Update] up to the locked region, and the loader *)
Lemma Update_unset kcs w :
  kubeConfigFile kcs = None →
  Update kcs w = (Panic "interface conversion: interface {} is nil, not string", w).
Proof. intros E. unfold Update, filePath. by rewrite E. Qed.

Lemma Update_contended kcs w path :
  kubeConfigFile kcs = Some path →
  lock_name path ∈ locks w →
  Update kcs w =
    (Fail (errors_Wrapf ErrTimeout "unable to acquire lock for "
             (Sprintf_Spec (PathMutexSpec (filepath_Join path "settings.Update")))), w).
Proof.
  intros E Hl. unfold Update, filePath. rewrite E.
  unfold bind at 1. unfold ret at 1.
  apply bind_Fail. unfold on_err, mutex_Acquire.
  by rewrite decide_True.
Qed.

Lemma Update_locked kcs w path :
  kubeConfigFile kcs = Some path →
  lock_name path ∉ locks w →
  Update kcs w =
    ((locked_body kcs path (acquired (lock_name path) w)).1,
     released (lock_name path) (locked_body kcs path (acquired (lock_name path) w)).2).
Proof.
  intros E Hl. unfold Update, filePath. rewrite E.
  unfold bind at 1. unfold ret at 1.
  erewrite bind_Ok; last first.
  { unfold on_err, mutex_Acquire. rewrite decide_False by done. reflexivity. }
  unfold defer. fold (lock_name path). fold (acquired (lock_name path) w).
  unfold bind at 1. unfold ret at 1.
  change ((let '(r, s') := locked_body kcs path (acquired (lock_name path) w)
           in (r, released (lock_name path) s')) =
          ((locked_body kcs path (acquired (lock_name path) w)).1,
           released (lock_name path)
             (locked_body kcs path (acquired (lock_name path) w)).2)).
  by destruct (locked_body kcs path (acquired (lock_name path) w)).
Qed.

Lemma readOrNew_world path w :
  (readOrNew path w).2 = log (EvReadFile path) w.
Proof.
  unfold readOrNew. rewrite ReadFile_eq.
  destruct (read_result (disk w) path) as [err|data].
  - by destruct (os_IsNotExist err).
  - by destruct (decode data).
Qed.

Lemma readOrNew_missing path w :
  disk w !! path = None →
  readOrNew path w = (Ok api.NewConfig, log (EvReadFile path) w).
Proof.
  intros E. unfold readOrNew. rewrite ReadFile_eq. unfold read_result. by rewrite E.
Qed.

Lemma readOrNew_unparsable path w data :
  disk w !! path = Some (Regular data) → decode data = None →
  readOrNew path w = (Fail (ErrDecode path), log (EvReadFile path) w).
Proof.
  intros E D. unfold readOrNew. rewrite ReadFile_eq. unfold read_result.
  by rewrite E, D.
Qed.

End Runs.

(** ** The claims *)

(** A run that returned normally, as an equation. *)
Lemma run_ok {S A} (c : M S A) (s : S) (a : A) :
  (c s).1 = Ok a → c s = (Ok a, (c s).2).
Proof. destruct (c s) as [r s']. cbn. by intros ->. Qed.

Section Claims.

Context `{Externals}.

(** C2: after a successful [PopulateFromSettings] the cluster entry, the
    credential entry and the context entry are all keyed by [ClusterName], the
    context's cluster and credential references are [ClusterName], and
    [ClusterName] is the only key the call added to the three maps. *)
Theorem populate_keys_are_cluster_name cfg st st' :
  PopulateFromSettings cfg st = (Ok tt, st') →
  ∃ cl u ctx,
    api.Config.Clusters (doc st') !! ClusterName cfg = Some cl ∧
    api.Config.AuthInfos (doc st') !! ClusterName cfg = Some u ∧
    api.Config.Contexts (doc st') !! ClusterName cfg = Some ctx ∧
    api.Context.Cluster ctx = ClusterName cfg ∧
    api.Context.AuthInfo ctx = ClusterName cfg ∧
    dom (api.Config.Clusters (doc st')) =
      {[ ClusterName cfg ]} ∪ dom (api.Config.Clusters (doc st)) ∧
    dom (api.Config.AuthInfos (doc st')) =
      {[ ClusterName cfg ]} ∪ dom (api.Config.AuthInfos (doc st)) ∧
    dom (api.Config.Contexts (doc st')) =
      {[ ClusterName cfg ]} ∪ dom (api.Config.Contexts (doc st)).
Proof.
  intros E. destruct (success_shape _ _ _ E) as (cl & u & -> & _).
  exists cl, u, (entry_context cfg (S (S (length (mem (world st)))))).
  unfold projected; cbn.
  rewrite !lookup_insert_eq, !dom_insert_L. done.
Qed.

(** C3: after a successful [PopulateFromSettings] the current context is
    [ClusterName] when [KeepContext] is false, whatever it was, and is its
    prior value when [KeepContext] is true, although the three entries under
    [ClusterName] are then present. *)
Theorem populate_current_context cfg st st' :
  PopulateFromSettings cfg st = (Ok tt, st') →
  api.Config.CurrentContext (doc st') =
    (if KeepContext cfg then api.Config.CurrentContext (doc st) else ClusterName cfg) ∧
  is_Some (api.Config.Clusters (doc st') !! ClusterName cfg) ∧
  is_Some (api.Config.AuthInfos (doc st') !! ClusterName cfg) ∧
  is_Some (api.Config.Contexts (doc st') !! ClusterName cfg).
Proof.
  intros E. destruct (success_shape _ _ _ E) as (cl & u & -> & _).
  unfold projected; cbn. rewrite !lookup_insert_eq. eauto.
Qed.

(** C4: with [EmbedCerts] false, [PopulateFromSettings] succeeds on every
    state; the only effect it adds to the trace is its clock reading, so no
    file is read; and the cluster entry's certificate-authority path and the
    credential entry's client-certificate and client-key paths are the
    Settings' path fields. *)
Theorem populate_by_reference cfg st :
  EmbedCerts cfg = false →
  ∃ st' cl u,
    PopulateFromSettings cfg st = (Ok tt, st') ∧
    trace (world st') = trace (world st) ++ [EvNow (clock (world st))] ∧
    reads (trace (world st')) = reads (trace (world st)) ∧
    disk (world st') = disk (world st) ∧
    api.Config.Clusters (doc st') !! ClusterName cfg = Some cl ∧
    api.Config.AuthInfos (doc st') !! ClusterName cfg = Some u ∧
    api.Cluster.CertificateAuthority cl = CertificateAuthority cfg ∧
    api.AuthInfo.ClientCertificate u = ClientCertificate cfg ∧
    api.AuthInfo.ClientKey u = ClientKey cfg.
Proof.
  intros He. eexists _, _, _. split; [by apply run_plain|].
  unfold copied, stamped, projected, reads; norm; cbn.
  rewrite !lookup_insert_eq, omap_app. cbn. rewrite app_nil_r. done.
Qed.

(** C5: with [EmbedCerts] true and the three certificate paths naming regular
    files, [PopulateFromSettings] succeeds, the cluster entry's inlined CA data
    and the credential entry's inlined certificate and key data are the
    contents of those files, and the path fields of both entries are empty. *)
Theorem populate_embedded cfg st ca cert key :
  EmbedCerts cfg = true →
  disk (world st) !! CertificateAuthority cfg = Some (Regular ca) →
  disk (world st) !! ClientCertificate cfg = Some (Regular cert) →
  disk (world st) !! ClientKey cfg = Some (Regular key) →
  ∃ st' cl u,
    PopulateFromSettings cfg st = (Ok tt, st') ∧
    api.Config.Clusters (doc st') !! ClusterName cfg = Some cl ∧
    api.Config.AuthInfos (doc st') !! ClusterName cfg = Some u ∧
    api.Cluster.CertificateAuthorityData cl = ca ∧
    api.AuthInfo.ClientCertificateData u = cert ∧
    api.AuthInfo.ClientKeyData u = key ∧
    api.Cluster.CertificateAuthority cl = "" ∧
    api.AuthInfo.ClientCertificate u = "" ∧
    api.AuthInfo.ClientKey u = "".
Proof.
  intros He Hca Hcert Hkey. eexists _, _, _.
  split; [by apply run_embed; [|apply read_result_regular..]|].
  unfold projected; cbn. rewrite !lookup_insert_eq. done.
Qed.

(** C6: with [EmbedCerts] true, when reading the certificate-authority file
    fails with [err], [PopulateFromSettings] returns [err] wrapped under
    "reading CertificateAuthority <path>" ([err] itself is the open error on
    that path); all it did was that one read, and the document, hence any
    prior cluster entry under [ClusterName], is as before. *)
Theorem populate_ca_read_failure cfg st err :
  EmbedCerts cfg = true →
  read_result (disk (world st)) (CertificateAuthority cfg) = inl err →
  ∃ st',
    PopulateFromSettings cfg st =
      (Fail (Wrapped err ("reading CertificateAuthority " +:+ CertificateAuthority cfg)),
       st') ∧
    (∃ e, err = PathError "open" (CertificateAuthority cfg) e) ∧
    world st' = log (EvReadFile (CertificateAuthority cfg)) (world st) ∧
    doc st' = doc st ∧
    api.Config.Clusters (doc st') !! ClusterName cfg =
      api.Config.Clusters (doc st) !! ClusterName cfg.
Proof.
  intros He Hca. eexists. split; [by apply run_ca_fail|].
  split; [by eapply read_result_inl|]. done.
Qed.

(** C7: with [EmbedCerts] true and a readable certificate-authority file, when
    the client certificate cannot be read, or it can and the client key
    cannot, [PopulateFromSettings] returns the read error wrapped under a
    message naming the failing path; the cluster entry under [ClusterName] is
    by then in the document, with the server address and the CA data, while
    the credential map, the context map and the current context are as
    before. *)
Theorem populate_credential_read_failure cfg st ca what path err :
  EmbedCerts cfg = true →
  read_result (disk (world st)) (CertificateAuthority cfg) = inr ca →
  (what = "reading ClientCertificate " ∧ path = ClientCertificate cfg ∧
   read_result (disk (world st)) (ClientCertificate cfg) = inl err)
  ∨ (what = "reading ClientKey " ∧ path = ClientKey cfg ∧
     (∃ cert, read_result (disk (world st)) (ClientCertificate cfg) = inr cert) ∧
     read_result (disk (world st)) (ClientKey cfg) = inl err) →
  ∃ st' cl,
    PopulateFromSettings cfg st = (Fail (Wrapped err (what +:+ path)), st') ∧
    (∃ e, err = PathError "open" path e) ∧
    api.Config.Clusters (doc st') !! ClusterName cfg = Some cl ∧
    api.Cluster.Server cl = ClusterServerAddress cfg ∧
    api.Cluster.CertificateAuthorityData cl = ca ∧
    api.Config.AuthInfos (doc st') = api.Config.AuthInfos (doc st) ∧
    api.Config.Contexts (doc st') = api.Config.Contexts (doc st) ∧
    api.Config.CurrentContext (doc st') = api.Config.CurrentContext (doc st).
Proof.
  intros He Hca [(-> & -> & Hcert)|(-> & -> & [cert Hcert] & Hkey)].
  - eexists _, _. split; [by eapply run_cert_fail|].
    split; [by eapply read_result_inl|].
    unfold cluster_written; cbn. by rewrite lookup_insert_eq.
  - eexists _, _. split; [by eapply run_key_fail|].
    split; [by eapply read_result_inl|].
    unfold cluster_written; cbn. by rewrite lookup_insert_eq.
Qed.

(** C8: a successful [PopulateFromSettings] leaves every entry of the
    cluster, credential and context maps under a key other than [ClusterName]
    as it was, and every extension object that existed before the call keeps
    its address and content. *)
Theorem populate_frame cfg st st' :
  PopulateFromSettings cfg st = (Ok tt, st') →
  (∀ name, name ≠ ClusterName cfg →
     api.Config.Clusters (doc st') !! name = api.Config.Clusters (doc st) !! name ∧
     api.Config.AuthInfos (doc st') !! name = api.Config.AuthInfos (doc st) !! name ∧
     api.Config.Contexts (doc st') !! name = api.Config.Contexts (doc st) !! name) ∧
  (∀ l e, mem (world st) !! l = Some e → mem (world st') !! l = Some e).
Proof.
  intros E. destruct (success_shape _ _ _ E) as (cl & u & -> & _ & -> & _).
  split.
  - intros name Hne. unfold projected; cbn. by rewrite !lookup_insert_ne.
  - intros l e Hl. by apply lookup_app_l_Some.
Qed.


(** C1: with [EmbedCerts] true, when [Update] has its path, has taken the lock
    and has loaded a document, and one of the three certificate files cannot
    be read, then [PopulateFromSettings] fails with an error whose cause is
    the open error on one of the three paths and [Update] returns that very
    error, having only released the lock after the projector stopped: from the
    loaded state on no file is written, so the disk is the one [Update] found,
    and the lock is free again. *)
Theorem update_read_failure_not_persisted kcs w target kcfg w1 path err :
  EmbedCerts kcs = true →
  kubeConfigFile kcs = Some target →
  lock_name target ∉ locks w →
  readOrNew target (acquired (lock_name target) w) = (Ok kcfg, w1) →
  path ∈ [CertificateAuthority kcs; ClientCertificate kcs; ClientKey kcs] →
  read_result (disk w1) path = inl err →
  ∃ e st' p' en,
    PopulateFromSettings kcs {| world := w1; doc := kcfg |} = (Fail e, st') ∧
    p' ∈ [CertificateAuthority kcs; ClientCertificate kcs; ClientKey kcs] ∧
    Cause e = PathError "open" p' en ∧
    Update kcs w = (Fail e, released (lock_name target) (world st')) ∧
    disk (world st') = disk w1 ∧
    writes (trace (released (lock_name target) (world st'))) = writes (trace w1) ∧
    disk (Update kcs w).2 = disk w ∧
    writes (trace (Update kcs w).2) = writes (trace w) ∧
    locks (Update kcs w).2 = locks w.
Proof.
  intros He Ht Hl Hload Hin Hrd.
  assert (Hw1 : w1 = log (EvReadFile target) (acquired (lock_name target) w)).
  { by rewrite <- readOrNew_world, Hload. }
  destruct (populate_read_failure kcs {| world := w1; doc := kcfg |} path err)
    as (e & st' & p' & en & Hpop & Hp' & Hcause); [done..|].
  exists e, st', p', en. split; [done|]. split; [done|]. split; [done|].
  assert (HU : Update kcs w = (Fail e, released (lock_name target) (world st'))).
  { rewrite (Update_locked _ _ _ Ht Hl). unfold locked_body.
    rewrite (bind_Ok _ _ _ _ _ Hload).
    erewrite bind_Fail; [reflexivity|].
    unfold call_PopulateFromSettings. by rewrite Hpop. }
  destruct (populate_end_disk _ _ _ _ (populate_inv _ _ _ _ Hpop)) as (Hd & Hlk & Hwr).
  cbn [world] in Hd, Hlk, Hwr.
  assert (Hrel : writes (trace (released (lock_name target) (world st')))
                 = writes (trace w1)).
  { unfold released; norm. rewrite writes_snoc, Hwr. cbn [writes omap].
    by rewrite app_nil_r. }
  rewrite HU. cbn [fst snd]. rewrite Hrel.
  unfold released; norm. rewrite Hd, Hlk, Hw1. unfold acquired; norm.
  rewrite !writes_snoc. cbn [writes omap]. rewrite !app_nil_r.
  repeat split; try done. by apply lock_round_trip.
Qed.

(** C9: when [Update] has its path and takes the lock: if no file exists at
    the path, the load yields the empty document and [Update] goes on to
    project into it and persist; if the file exists and does not parse,
    [Update] returns an error having only taken the lock, read the file and
    released the lock, so nothing was projected or written and the disk is as
    before. *)
Theorem update_load kcs target w_missing w_bad data :
  kubeConfigFile kcs = Some target →
  lock_name target ∉ locks w_missing →
  lock_name target ∉ locks w_bad →
  disk w_missing !! target = None →
  disk w_bad !! target = Some (Regular data) →
  decode data = None →
  let name := lock_name target in
  let loaded := log (EvReadFile target) (acquired name w_missing) in
  let rest :=
    (kcfg <- call_PopulateFromSettings kcs api.NewConfig ;;
     on_err (writeToFile kcfg target)
       (fun err => errors_Wrap err "writing kubeconfig")) loaded in
  (readOrNew target (acquired name w_missing) = (Ok api.NewConfig, loaded) ∧
   Update kcs w_missing = (rest.1, released name rest.2)) ∧
  (∃ e w',
     Update kcs w_bad = (Fail e, w') ∧
     disk w' = disk w_bad ∧ mem w' = mem w_bad ∧ clock w' = clock w_bad ∧
     locks w' = locks w_bad ∧
     trace w' = trace w_bad ++ [EvAcquire name; EvReadFile target; EvRelease name]).
Proof.
  intros Ht Hl1 Hl2 Hmiss Hbad Hdec name loaded rest. split.
  - assert (Hload : readOrNew target (acquired name w_missing) = (Ok api.NewConfig, loaded))
      by (by apply readOrNew_missing).
    split; [done|].
    rewrite (Update_locked _ _ _ Ht Hl1). unfold locked_body. fold name.
    by rewrite (bind_Ok _ _ _ _ _ Hload).
  - eexists _, _. rewrite (Update_locked _ _ _ Ht Hl2). unfold locked_body. fold name.
    erewrite bind_Fail; [|by eapply readOrNew_unparsable].
    split; [reflexivity|]. unfold released, acquired; norm.
    cbn [fst snd]; norm. rewrite <- !app_assoc. repeat split; try done. by apply lock_round_trip.
Qed.

End Claims.

(** ** The claims on the sample inputs *)

Lemma sample_embed_runs :
  PopulateFromSettings (H := sample_externals) settings_embed state_all
  = (Ok tt, after_embed).
Proof.
  exact (run_ok (PopulateFromSettings (H := sample_externals) settings_embed)
           state_all tt eq_refl).
Qed.

Lemma sample_embed_keep_runs :
  PopulateFromSettings (H := sample_externals) settings_embed_keep state_all
  = (Ok tt, after_embed_keep).
Proof.
  exact (run_ok (PopulateFromSettings (H := sample_externals) settings_embed_keep)
           state_all tt eq_refl).
Qed.

Lemma populate_keys_are_cluster_name_witness :
  PopulateFromSettings (H := sample_externals) settings_embed state_all
  = (Ok tt, after_embed) ∧
  ∃ cl u ctx,
    api.Config.Clusters (doc after_embed) !! "minikube" = Some cl ∧
    api.Config.AuthInfos (doc after_embed) !! "minikube" = Some u ∧
    api.Config.Contexts (doc after_embed) !! "minikube" = Some ctx ∧
    api.Context.Cluster ctx = "minikube" ∧
    api.Context.AuthInfo ctx = "minikube" ∧
    dom (api.Config.Clusters (doc after_embed)) =
      {[ "minikube" ]} ∪ dom (api.Config.Clusters sample_doc) ∧
    dom (api.Config.AuthInfos (doc after_embed)) =
      {[ "minikube" ]} ∪ dom (api.Config.AuthInfos sample_doc) ∧
    dom (api.Config.Contexts (doc after_embed)) =
      {[ "minikube" ]} ∪ dom (api.Config.Contexts sample_doc).
Proof.
  split; [exact sample_embed_runs|].
  exact (populate_keys_are_cluster_name (H := sample_externals)
           settings_embed state_all after_embed sample_embed_runs).
Defined.

Lemma populate_current_context_witness :
  PopulateFromSettings (H := sample_externals) settings_embed_keep state_all
  = (Ok tt, after_embed_keep) ∧
  api.Config.CurrentContext (doc after_embed_keep) = "other" ∧
  is_Some (api.Config.Clusters (doc after_embed_keep) !! "minikube") ∧
  is_Some (api.Config.AuthInfos (doc after_embed_keep) !! "minikube") ∧
  is_Some (api.Config.Contexts (doc after_embed_keep) !! "minikube").
Proof.
  split; [exact sample_embed_keep_runs|].
  exact (populate_current_context (H := sample_externals)
           settings_embed_keep state_all after_embed_keep sample_embed_keep_runs).
Defined.

Lemma populate_by_reference_witness :
  EmbedCerts settings_by_path = false ∧
  ∃ st' cl u,
    PopulateFromSettings (H := sample_externals) settings_by_path state_bare = (Ok tt, st') ∧
    trace (world st') = [EvNow 42] ∧
    reads (trace (world st')) = [] ∧
    disk (world st') = ∅ ∧
    api.Config.Clusters (doc st') !! "minikube" = Some cl ∧
    api.Config.AuthInfos (doc st') !! "minikube" = Some u ∧
    api.Cluster.CertificateAuthority cl = "/certs/ca.crt" ∧
    api.AuthInfo.ClientCertificate u = "/certs/client.crt" ∧
    api.AuthInfo.ClientKey u = "/certs/client.key".
Proof.
  split; [reflexivity|].
  exact (populate_by_reference (H := sample_externals) settings_by_path state_bare eq_refl).
Defined.

Lemma populate_embedded_witness :
  EmbedCerts settings_embed = true ∧
  disk_all !! "/certs/ca.crt" = Some (Regular [x01]) ∧
  disk_all !! "/certs/client.crt" = Some (Regular [x02]) ∧
  disk_all !! "/certs/client.key" = Some (Regular [x03]) ∧
  ∃ st' cl u,
    PopulateFromSettings (H := sample_externals) settings_embed state_all = (Ok tt, st') ∧
    api.Config.Clusters (doc st') !! "minikube" = Some cl ∧
    api.Config.AuthInfos (doc st') !! "minikube" = Some u ∧
    api.Cluster.CertificateAuthorityData cl = [x01] ∧
    api.AuthInfo.ClientCertificateData u = [x02] ∧
    api.AuthInfo.ClientKeyData u = [x03] ∧
    api.Cluster.CertificateAuthority cl = "" ∧
    api.AuthInfo.ClientCertificate u = "" ∧
    api.AuthInfo.ClientKey u = "".
Proof.
  repeat (split; [reflexivity|]).
  exact (populate_embedded (H := sample_externals) settings_embed state_all
           [x01] [x02] [x03] eq_refl eq_refl eq_refl eq_refl).
Defined.

Lemma populate_ca_read_failure_witness :
  EmbedCerts settings_embed = true ∧
  read_result ∅ "/certs/ca.crt" = inl (PathError "open" "/certs/ca.crt" ENOENT) ∧
  ∃ st',
    PopulateFromSettings (H := sample_externals) settings_embed state_bare =
      (Fail (Wrapped (PathError "open" "/certs/ca.crt" ENOENT)
               ("reading CertificateAuthority " +:+ "/certs/ca.crt")), st') ∧
    (∃ e, PathError "open" "/certs/ca.crt" ENOENT = PathError "open" "/certs/ca.crt" e) ∧
    world st' = log (EvReadFile "/certs/ca.crt") (world state_bare) ∧
    doc st' = sample_doc ∧
    api.Config.Clusters (doc st') !! "minikube" =
      api.Config.Clusters sample_doc !! "minikube".
Proof.
  repeat (split; [reflexivity|]).
  exact (populate_ca_read_failure (H := sample_externals) settings_embed state_bare
           (PathError "open" "/certs/ca.crt" ENOENT) eq_refl eq_refl).
Defined.

Lemma populate_credential_read_failure_witness :
  EmbedCerts settings_embed = true ∧
  read_result disk_no_key "/certs/ca.crt" = inr [x01] ∧
  read_result disk_no_key "/certs/client.crt" = inr [x02] ∧
  read_result disk_no_key "/certs/client.key"
    = inl (PathError "open" "/certs/client.key" ENOENT) ∧
  ∃ st' cl,
    PopulateFromSettings (H := sample_externals) settings_embed state_no_key =
      (Fail (Wrapped (PathError "open" "/certs/client.key" ENOENT)
               ("reading ClientKey " +:+ "/certs/client.key")), st') ∧
    (∃ e, PathError "open" "/certs/client.key" ENOENT
          = PathError "open" "/certs/client.key" e) ∧
    api.Config.Clusters (doc st') !! "minikube" = Some cl ∧
    api.Cluster.Server cl = "https://192.168.49.2:8443" ∧
    api.Cluster.CertificateAuthorityData cl = [x01] ∧
    api.Config.AuthInfos (doc st') = api.Config.AuthInfos sample_doc ∧
    api.Config.Contexts (doc st') = api.Config.Contexts sample_doc ∧
    api.Config.CurrentContext (doc st') = "other".
Proof.
  repeat (split; [reflexivity|]).
  exact (populate_credential_read_failure (H := sample_externals)
           settings_embed state_no_key [x01] "reading ClientKey " "/certs/client.key"
           (PathError "open" "/certs/client.key" ENOENT) eq_refl eq_refl
           (or_intror (conj eq_refl (conj eq_refl
              (conj (ex_intro _ [x02] eq_refl) eq_refl))))).
Defined.

Lemma populate_frame_witness :
  PopulateFromSettings (H := sample_externals) settings_embed state_all
  = (Ok tt, after_embed) ∧
  (∀ name, name ≠ "minikube" →
     api.Config.Clusters (doc after_embed) !! name = api.Config.Clusters sample_doc !! name ∧
     api.Config.AuthInfos (doc after_embed) !! name = api.Config.AuthInfos sample_doc !! name ∧
     api.Config.Contexts (doc after_embed) !! name = api.Config.Contexts sample_doc !! name) ∧
  (∀ l e, mem (world state_all) !! l = Some e → mem (world after_embed) !! l = Some e).
Proof.
  split; [exact sample_embed_runs|].
  exact (populate_frame (H := sample_externals)
           settings_embed state_all after_embed sample_embed_runs).
Defined.


Lemma update_read_failure_not_persisted_witness :
  EmbedCerts settings_embed = true ∧
  kubeConfigFile settings_embed = Some "/kube/config" ∧
  (sample_lock ∉ locks world_no_key) ∧
  readOrNew (H := sample_externals) "/kube/config" (acquired sample_lock world_no_key)
    = (Ok api.NewConfig, world_loaded) ∧
  "/certs/client.key" ∈ ["/certs/ca.crt"; "/certs/client.crt"; "/certs/client.key"] ∧
  read_result (disk world_loaded) "/certs/client.key"
    = inl (PathError "open" "/certs/client.key" ENOENT) ∧
  ∃ e st' p' en,
    PopulateFromSettings (H := sample_externals) settings_embed
      {| world := world_loaded; doc := api.NewConfig |} = (Fail e, st') ∧
    p' ∈ ["/certs/ca.crt"; "/certs/client.crt"; "/certs/client.key"] ∧
    Cause e = PathError "open" p' en ∧
    Update (H := sample_externals) settings_embed world_no_key
      = (Fail e, released sample_lock (world st')) ∧
    disk (world st') = disk world_loaded ∧
    writes (trace (released sample_lock (world st'))) = writes (trace world_loaded) ∧
    disk (Update (H := sample_externals) settings_embed world_no_key).2 = disk_no_key ∧
    writes (trace (Update (H := sample_externals) settings_embed world_no_key).2) = [] ∧
    locks (Update (H := sample_externals) settings_embed world_no_key).2 = ∅.
Proof.
  assert (Hfree : sample_lock ∉ locks world_no_key) by apply not_elem_of_empty.
  assert (Hload : readOrNew (H := sample_externals) "/kube/config"
                    (acquired sample_lock world_no_key) = (Ok api.NewConfig, world_loaded))
    by (apply readOrNew_missing; reflexivity).
  assert (Hin : "/certs/client.key"
                ∈ ["/certs/ca.crt"; "/certs/client.crt"; "/certs/client.key"])
    by (rewrite !elem_of_cons; tauto).
  repeat (split; [first [reflexivity | assumption]|]).
  exact (update_read_failure_not_persisted (H := sample_externals)
           settings_embed world_no_key "/kube/config" api.NewConfig world_loaded
           "/certs/client.key" (PathError "open" "/certs/client.key" ENOENT)
           eq_refl eq_refl Hfree Hload Hin eq_refl).
Defined.

Lemma update_load_witness :
  kubeConfigFile settings_embed = Some "/kube/config" ∧
  (sample_lock ∉ locks world_no_key) ∧
  (sample_lock ∉ locks world_garbled) ∧
  disk world_no_key !! "/kube/config" = None ∧
  disk world_garbled !! "/kube/config" = Some (Regular [x3a]) ∧
  decode (Externals := sample_externals) [x3a] = None ∧
  (readOrNew (H := sample_externals) "/kube/config" (acquired sample_lock world_no_key)
     = (Ok api.NewConfig, world_loaded) ∧
   Update (H := sample_externals) settings_embed world_no_key
     = (sample_rest.1, released sample_lock sample_rest.2)) ∧
  (∃ e w',
     Update (H := sample_externals) settings_embed world_garbled = (Fail e, w') ∧
     disk w' = disk world_garbled ∧ mem w' = mem world_garbled ∧
     clock w' = clock world_garbled ∧ locks w' = locks world_garbled ∧
     trace w' = trace world_garbled
                ++ [EvAcquire sample_lock; EvReadFile "/kube/config"; EvRelease sample_lock]).
Proof.
  assert (Hfree1 : sample_lock ∉ locks world_no_key) by apply not_elem_of_empty.
  assert (Hfree2 : sample_lock ∉ locks world_garbled) by apply not_elem_of_empty.
  repeat (split; [first [reflexivity | assumption]|]).
  exact (update_load (H := sample_externals) settings_embed "/kube/config"
           world_no_key world_garbled [x3a]
           eq_refl Hfree1 Hfree2 eq_refl eq_refl eq_refl).
Defined.

(** ** Further properties of the code *)

Section Further.
Context `{Externals}.

Lemma DeepCopyInto_valid w i o v :
  mem w !! i = Some v → o < length (mem w) →
  DeepCopyInto (Some i) (Some o) w = (Ok tt, set_mem (<[o := v]> (mem w)) w).
Proof.
  intros Hi Ho. unfold DeepCopyInto.
  rewrite (bind_Ok _ _ _ _ _ (load_valid _ _ _ Hi)).
  rewrite (bind_Ok _ _ _ _ _ (store_valid _ _ v Ho)).
  set (w2 := set_mem (<[o := v]> (mem w)) w).
  assert (Hout : mem w2 !! o = Some v) by (by apply list_lookup_insert_eq).
  assert (Hin : mem w2 !! i = Some v).
  { unfold w2; norm. destruct (decide (o = i)) as [->|Hne].
    - by apply list_lookup_insert_eq.
    - by rewrite list_lookup_insert_ne. }
  rewrite (bind_Ok _ _ _ _ _ (load_valid _ _ _ Hin)).
  rewrite (bind_Ok _ _ _ _ _ (load_valid _ _ _ Hout)).
  rewrite store_valid by (unfold w2; norm; by rewrite length_insert).
  f_equal. unfold w2, set_mem; norm. f_equal.
  rewrite list_insert_insert_eq. by destruct v.
Qed.

(** X13: [DeepCopyInto] between two live objects leaves the target holding
    the source's content, the source as it was, every other object and the
    number of objects unchanged, and touches nothing else in the world. *)
Theorem DeepCopyInto_overwrites w i o v :
  mem w !! i = Some v → o < length (mem w) →
  ∃ w',
    DeepCopyInto (Some i) (Some o) w = (Ok tt, w') ∧
    mem w' !! o = Some v ∧ mem w' !! i = Some v ∧
    length (mem w') = length (mem w) ∧
    (∀ l, l ≠ o → mem w' !! l = mem w !! l) ∧
    disk w' = disk w ∧ clock w' = clock w ∧ locks w' = locks w ∧ trace w' = trace w.
Proof.
  intros Hi Ho. eexists. split; [by apply DeepCopyInto_valid|]. norm.
  split; [by apply list_lookup_insert_eq|].
  split.
  { destruct (decide (o = i)) as [->|Hne].
    - by apply list_lookup_insert_eq.
    - by rewrite list_lookup_insert_ne. }
  split; [by rewrite length_insert|].
  split; [|done]. intros l Hl. by rewrite list_lookup_insert_ne.
Qed.

(** X12: [DeepCopy] of a live object returns a fresh address, distinct from
    the source and from every address in use, holding the source's content;
    all prior objects keep their content and nothing else in the world
    changes.  The copy is independent: a later write through either pointer
    is not seen through the other. *)
Theorem DeepCopy_is_independent w l v v' :
  mem w !! l = Some v →
  ∃ l' w',
    DeepCopy (Some l) w = (Ok (Some l'), w') ∧
    l' ≠ l ∧ mem w !! l' = None ∧
    mem w' !! l' = Some v ∧
    (∀ k x, mem w !! k = Some x → mem w' !! k = Some x) ∧
    length (mem w') = S (length (mem w)) ∧
    disk w' = disk w ∧ clock w' = clock w ∧ locks w' = locks w ∧ trace w' = trace w ∧
    (∃ w'', store (Some l') v' w' = (Ok tt, w'') ∧
            mem w'' !! l = Some v ∧ mem w'' !! l' = Some v') ∧
    (∃ w'', store (Some l) v' w' = (Ok tt, w'') ∧
            mem w'' !! l' = Some v ∧ mem w'' !! l = Some v').
Proof.
  intros Hl. pose proof (lookup_lt_Some _ _ _ Hl) as Hlt.
  exists (length (mem w)), (set_mem (mem w ++ [v]) w).
  split; [by apply DeepCopy_valid|]. norm.
  assert (Hnew : (mem w ++ [v]) !! length (mem w) = Some v).
  { rewrite lookup_app_r by lia. by rewrite Nat.sub_diag. }
  split; [lia|]. split; [by apply lookup_ge_None_2|]. split; [done|].
  split; [by intros k x Hk; apply lookup_app_l_Some|].
  split; [rewrite length_app; simpl; lia|].
  do 4 (split; [done|]). split.
  - eexists. split.
    + apply store_valid. norm. rewrite length_app; simpl; lia.
    + norm. split.
      * rewrite list_lookup_insert_ne by lia. by apply lookup_app_l_Some.
      * apply list_lookup_insert_eq. rewrite length_app; simpl; lia.
  - eexists. split.
    + apply store_valid. norm. rewrite length_app; simpl; lia.
    + norm. split.
      * by rewrite list_lookup_insert_ne by lia.
      * apply list_lookup_insert_eq. rewrite length_app; simpl; lia.
Qed.

(** X14: [DeepCopyObject] behaves as [DeepCopy] on every pointer and world,
    result and world alike; on [nil] both return [nil] and allocate
    nothing. *)
Theorem DeepCopyObject_is_DeepCopy (p : ptr) w :
  DeepCopyObject p w = DeepCopy p w ∧
  DeepCopy None w = (Ok None, w).
Proof.
  split; [|done]. unfold DeepCopyObject, bind.
  destruct (DeepCopy p w) as [[[l|]|e|why] w']; reflexivity.
Qed.

(** X1: [filePath] reads back what [SetPath] stored, a second [SetPath]
    replaces the first, and [SetPath] changes nothing the projector looks at:
    [PopulateFromSettings] behaves the same with or without it. *)
Theorem SetPath_only_sets_the_path (k : Settings) (p q : string) (w : World) st :
  filePath (SetPath k p) w = (Ok p, w) ∧
  filePath (SetPath (SetPath k p) q) w = (Ok q, w) ∧
  SetPath (SetPath k p) q = SetPath k q ∧
  PopulateFromSettings (SetPath k p) st = PopulateFromSettings k st.
Proof. done. Qed.


(** X7: the effects of [PopulateFromSettings] are an initial part of one
    fixed sequence: the CA read, the clock reading, the client-certificate
    read, the client-key read when embedding, and the clock reading alone
    otherwise.  A call that returns normally made all of them; a call that
    returns an error stopped right after a file read, and the cause of its
    error is the open error on that file. *)
Theorem populate_effects_in_order cfg st :
  ∃ evs,
    trace (world (PopulateFromSettings cfg st).2) = trace (world st) ++ evs ∧
    evs `prefix_of` script cfg (clock (world st)) ∧
    match (PopulateFromSettings cfg st).1 with
    | Ok _ => evs = script cfg (clock (world st))
    | Fail e => ∃ path en, last evs = Some (EvReadFile path) ∧
                           Cause e = PathError "open" path en
    | Panic _ => False
    end.
Proof.
  pose proof (populate_ends cfg st) as Hend.
  destruct (PopulateFromSettings cfg st) as [r st']. cbn [fst snd] in *.
  unfold script.
  inversion Hend as [He|ca cert key He|err He Hrd|ca err He _ Hrd|ca cert err He _ _ Hrd];
    subst; rewrite He; unfold copied, cluster_written, stamped; norm;
    try (destruct (read_result_inl _ _ _ Hrd) as [en ->]).
  - exists [EvNow (clock (world st))]. done.
  - eexists. rewrite <- !app_assoc. split; [reflexivity|]. done.
  - exists [EvReadFile (CertificateAuthority cfg)]. split; [done|]. split.
    + by eexists.
    + by eexists _, _.
  - eexists. rewrite <- !app_assoc. split; [reflexivity|]. split.
    + simpl. by eexists [_].
    + by eexists _, _.
  - eexists. rewrite <- !app_assoc. split; [reflexivity|]. split.
    + simpl. by eexists [].
    + by eexists _, _.
Qed.

(** X8: however [PopulateFromSettings] ends, it has written no file, left
    the disk and the held locks as they were, kept every extension object
    that existed before, and left every entry of the three maps under a key
    other than [ClusterName] as it was. *)
Theorem populate_frame_on_every_exit cfg st :
  let st' := (PopulateFromSettings cfg st).2 in
  disk (world st') = disk (world st) ∧
  locks (world st') = locks (world st) ∧
  writes (trace (world st')) = writes (trace (world st)) ∧
  (∀ l e, mem (world st) !! l = Some e → mem (world st') !! l = Some e) ∧
  (∀ name, name ≠ ClusterName cfg →
     api.Config.Clusters (doc st') !! name = api.Config.Clusters (doc st) !! name ∧
     api.Config.AuthInfos (doc st') !! name = api.Config.AuthInfos (doc st) !! name ∧
     api.Config.Contexts (doc st') !! name = api.Config.Contexts (doc st) !! name).
Proof.
  intros st'. pose proof (populate_ends cfg st) as Hend. fold st' in Hend.
  destruct (populate_end_disk _ _ _ _ Hend) as (Hd & Hl & Hw).
  do 3 (split; [done|]).
  clearbody st'.
  inversion Hend; subst; unfold copied, cluster_written, stamped, projected; norm; cbn;
    (split; [intros l e Hl'; rewrite <- ?app_assoc; first [done | by apply lookup_app_l_Some]
            |intros name Hne; by rewrite ?lookup_insert_ne]).
Qed.

Lemma insert_from_delete {V} (m1 m2 : gmap string V) (i : string) (x : V) :
  delete i m1 = delete i m2 → <[i := x]> m1 = <[i := x]> m2.
Proof.
  intros E. by rewrite <- (insert_delete_eq m1), <- (insert_delete_eq m2), E.
Qed.

(** X9: what a document held under [ClusterName] before the call does not
    matter: two documents that agree everywhere else and on the current
    context are taken, from the same world, to the very same state by a
    successful call.  The entries are replaced, not merged. *)
Theorem populate_replaces_entries cfg w d1 d2 st1 :
  delete (ClusterName cfg) (api.Config.Clusters d1)
    = delete (ClusterName cfg) (api.Config.Clusters d2) →
  delete (ClusterName cfg) (api.Config.AuthInfos d1)
    = delete (ClusterName cfg) (api.Config.AuthInfos d2) →
  delete (ClusterName cfg) (api.Config.Contexts d1)
    = delete (ClusterName cfg) (api.Config.Contexts d2) →
  api.Config.CurrentContext d1 = api.Config.CurrentContext d2 →
  PopulateFromSettings cfg {| world := w; doc := d1 |} = (Ok tt, st1) →
  PopulateFromSettings cfg {| world := w; doc := d2 |} = (Ok tt, st1).
Proof.
  intros Hc Hu Hx Hcc E. apply populate_inv in E.
  inversion E as [He|ca cert key He Hca Hcert Hkey| | |]; subst; clear E.
  - rewrite (run_plain _ _ He). norm. f_equal. f_equal.
    unfold projected; norm. rewrite Hcc.
    f_equal; by apply insert_from_delete.
  - rewrite (run_embed _ {| world := w; doc := d2 |} _ _ _ He Hca Hcert Hkey).
    norm. f_equal. f_equal.
    unfold projected; norm. rewrite Hcc.
    f_equal; by apply insert_from_delete.
Qed.

(** X10: after two successful calls in a row under different cluster names,
    the three entries of the first call are still in the document, unchanged,
    next to those of the second; the extension objects of the first call are
    intact; and the current context follows the second call's [KeepContext]
    alone. *)
Theorem populate_twice_coexist cfg1 cfg2 st st1 st2 :
  ClusterName cfg1 ≠ ClusterName cfg2 →
  PopulateFromSettings cfg1 st = (Ok tt, st1) →
  PopulateFromSettings cfg2 st1 = (Ok tt, st2) →
  ∃ cl1 u1 ctx1 cl2 u2 ctx2,
    api.Config.Clusters (doc st1) !! ClusterName cfg1 = Some cl1 ∧
    api.Config.AuthInfos (doc st1) !! ClusterName cfg1 = Some u1 ∧
    api.Config.Contexts (doc st1) !! ClusterName cfg1 = Some ctx1 ∧
    api.Config.Clusters (doc st2) !! ClusterName cfg1 = Some cl1 ∧
    api.Config.AuthInfos (doc st2) !! ClusterName cfg1 = Some u1 ∧
    api.Config.Contexts (doc st2) !! ClusterName cfg1 = Some ctx1 ∧
    api.Config.Clusters (doc st2) !! ClusterName cfg2 = Some cl2 ∧
    api.Config.AuthInfos (doc st2) !! ClusterName cfg2 = Some u2 ∧
    api.Config.Contexts (doc st2) !! ClusterName cfg2 = Some ctx2 ∧
    (∀ l e, mem (world st1) !! l = Some e → mem (world st2) !! l = Some e) ∧
    api.Config.CurrentContext (doc st2) =
      (if KeepContext cfg2 then api.Config.CurrentContext (doc st1)
       else ClusterName cfg2).
Proof.
  intros Hne E1 E2.
  destruct (success_shape _ _ _ E1) as (cl1 & u1 & Hd1 & _).
  destruct (success_shape _ _ _ E2) as (cl2 & u2 & Hd2 & _ & Hm2 & _).
  exists cl1, u1, (entry_context cfg1 (S (S (length (mem (world st)))))),
         cl2, u2, (entry_context cfg2 (S (S (length (mem (world st1)))))).
  rewrite Hd2, Hm2. unfold projected; cbn.
  rewrite !lookup_insert_eq, !lookup_insert_ne by done.
  rewrite Hd1. unfold projected; cbn. rewrite !lookup_insert_eq.
  repeat split; try done. by intros l e Hl; apply lookup_app_l_Some.
Qed.

(** X11: the entries of a successful call carry the server address and the
    namespace of the Settings as given, and hold each certificate either by
    path or inline, never both: the path fields are empty when embedding and
    the data fields are empty otherwise. *)
Theorem populate_entry_fields cfg st st' :
  PopulateFromSettings cfg st = (Ok tt, st') →
  ∃ cl u ctx,
    api.Config.Clusters (doc st') !! ClusterName cfg = Some cl ∧
    api.Config.AuthInfos (doc st') !! ClusterName cfg = Some u ∧
    api.Config.Contexts (doc st') !! ClusterName cfg = Some ctx ∧
    api.Cluster.Server cl = ClusterServerAddress cfg ∧
    api.Context.Namespace ctx = Namespace cfg ∧
    (if EmbedCerts cfg then
       api.Cluster.CertificateAuthority cl = "" ∧
       api.AuthInfo.ClientCertificate u = "" ∧ api.AuthInfo.ClientKey u = ""
     else
       api.Cluster.CertificateAuthorityData cl = [] ∧
       api.AuthInfo.ClientCertificateData u = [] ∧ api.AuthInfo.ClientKeyData u = []).
Proof.
  intros E. apply populate_inv in E.
  inversion E as [He|ca cert key He Hca Hcert Hkey| | |]; subst; clear E;
    eexists _, _, _; unfold projected; cbn; rewrite !lookup_insert_eq, He; done.
Qed.

Lemma writeToFile_world config path w :
  trace (writeToFile config path w).2 = trace w ++ [EvWriteFile path] ∧
  locks (writeToFile config path w).2 = locks w ∧
  mem (writeToFile config path w).2 = mem w.
Proof.
  unfold writeToFile, ioutil_WriteFile.
  by destruct (disk w !! path) as [[c|e]|].
Qed.

Lemma writeToFile_denied config path w e :
  disk w !! path = Some (Denied e) →
  writeToFile config path w = (Fail (PathError "open" path e), log (EvWriteFile path) w).
Proof. intros E. unfold writeToFile, ioutil_WriteFile. by rewrite E. Qed.

Lemma on_err_world {S A} (c : M S A) wrap (s : S) : (on_err c wrap s).2 = (c s).2.
Proof. unfold on_err. by destruct (c s) as [[a|e|why] s']. Qed.

Lemma script_quiet cfg now : Forall (λ ev, ¬ lock_event ev) (script cfg now).
Proof. unfold script. destruct (EmbedCerts cfg); repeat constructor; by intros []. Qed.

Lemma prefix_Forall {A} (P : A → Prop) (l k : list A) :
  l `prefix_of` k → Forall P k → Forall P l.
Proof. intros [t ->] Hk. by apply Forall_app in Hk as [? _]. Qed.

Lemma locked_body_steps kcs path w :
  locked_body kcs path w =
    match readOrNew path w with
    | (Ok kcfg, w1) =>
        match PopulateFromSettings kcs {| world := w1; doc := kcfg |} with
        | (Ok _, st') =>
            on_err (writeToFile (doc st') path)
              (fun err => errors_Wrap err "writing kubeconfig") (world st')
        | (Fail e, st') => (Fail e, world st')
        | (Panic why, st') => (Panic why, world st')
        end
    | (Fail e, w1) => (Fail e, w1)
    | (Panic why, w1) => (Panic why, w1)
    end.
Proof.
  unfold locked_body, bind, call_PopulateFromSettings.
  destruct (readOrNew path w) as [[kcfg|e|why] w1]; try done.
  by destruct (PopulateFromSettings kcs _) as [[[]|e|why] st'].
Qed.

(** Between taking and releasing the lock, [Update] only extends the trace,
    with no lock event, and leaves the lock set alone. *)
Lemma locked_body_quiet kcs path w :
  ∃ mid,
    trace (locked_body kcs path w).2 = trace w ++ mid ∧
    Forall (λ ev, ¬ lock_event ev) mid ∧
    locks (locked_body kcs path w).2 = locks w.
Proof.
  rewrite locked_body_steps.
  pose proof (readOrNew_world path w) as Hw.
  destruct (readOrNew path w) as [[kcfg|e|why] w1]; cbn [snd] in Hw; subst w1;
    try (exists [EvReadFile path]; cbn [snd]; norm; split; [done|]; split; [|done];
         repeat constructor; by intros []).
  set (st := {| world := log (EvReadFile path) w; doc := kcfg |}).
  destruct (populate_effects_in_order kcs st) as (evs & Htr & Hpre & _).
  destruct (populate_end_disk _ _ _ _ (populate_ends kcs st)) as (_ & Hlk & _).
  assert (Hq : Forall (λ ev, ¬ lock_event ev) evs)
    by (eapply prefix_Forall; [done|apply script_quiet]).
  destruct (PopulateFromSettings kcs st) as [[[]|e|why] st']; cbn [fst snd] in *.
  - rewrite on_err_world.
    destruct (writeToFile_world (doc st') path (world st')) as (Ht & Hl & _).
    exists (EvReadFile path :: evs ++ [EvWriteFile path]).
    rewrite Ht, Hl, Htr, Hlk. unfold st; norm.
    split; [by rewrite <- !app_assoc|]. split; [|done].
    constructor; [by intros []|]. apply Forall_app. split; [done|].
    repeat constructor; by intros [].
  - exists (EvReadFile path :: evs). rewrite Htr, Hlk. unfold st; norm.
    split; [by rewrite <- !app_assoc|]. split; [|done].
    constructor; [by intros []|done].
  - exists (EvReadFile path :: evs). rewrite Htr, Hlk. unfold st; norm.
    split; [by rewrite <- !app_assoc|]. split; [|done].
    constructor; [by intros []|done].
Qed.

(** X2: [Update] on Settings whose path was never set panics at once: the
    world is untouched, so no lock was taken and no file read. *)
Theorem update_without_path_panics kcs w :
  kubeConfigFile kcs = None →
  ∃ why, Update kcs w = (Panic why, w).
Proof. intros E. eexists. by apply Update_unset. Qed.

(** X3: when the lock of the target path is held, [Update] returns the
    timeout wrapped under "unable to acquire lock for <spec>" and leaves the
    world untouched: nothing is read or written, and the lock it did not get
    is not released. *)
Theorem update_lock_busy kcs w path :
  kubeConfigFile kcs = Some path →
  lock_name path ∈ locks w →
  Update kcs w =
    (Fail (Wrapped ErrTimeout
             ("unable to acquire lock for "
              +:+ Sprintf_Spec (PathMutexSpec (filepath_Join path "settings.Update")))),
     w).
Proof. intros E Hl. by apply Update_contended. Qed.

(** X4: once [Update] has taken the lock it releases it on every exit,
    whatever the outcome: the trace it adds begins with the acquisition and
    ends with the release, with no lock event in between, and the set of held
    locks is as before. *)
Theorem update_releases_lock kcs w path :
  kubeConfigFile kcs = Some path →
  lock_name path ∉ locks w →
  ∃ mid,
    trace (Update kcs w).2 =
      trace w ++ [EvAcquire (lock_name path)] ++ mid ++ [EvRelease (lock_name path)] ∧
    Forall (λ ev, ¬ lock_event ev) mid ∧
    locks (Update kcs w).2 = locks w.
Proof.
  intros E Hl. rewrite (Update_locked _ _ _ E Hl). cbn [snd].
  destruct (locked_body_quiet kcs path (acquired (lock_name path) w))
    as (mid & Ht & Hq & Hlk).
  exists mid. unfold released; norm. rewrite Ht, Hlk. unfold acquired; norm.
  split; [by rewrite <- !app_assoc|]. split; [done|]. by apply lock_round_trip.
Qed.

(** X5: when the load and the projection succeed, [Update] hands the
    projected document and the same path to the writer, returns [nil] if the
    writer did, returns the writer's error wrapped under "writing kubeconfig"
    if it failed, and releases the lock after the write in both cases. *)
Theorem update_persists_projection kcs w path kcfg w1 st' r w2 :
  kubeConfigFile kcs = Some path →
  lock_name path ∉ locks w →
  readOrNew path (acquired (lock_name path) w) = (Ok kcfg, w1) →
  PopulateFromSettings kcs {| world := w1; doc := kcfg |} = (Ok tt, st') →
  writeToFile (doc st') path (world st') = (r, w2) →
  Update kcs w =
    (match r with
     | Fail err => Fail (Wrapped err "writing kubeconfig")
     | _ => r
     end, released (lock_name path) w2).
Proof.
  intros E Hl Hload Hpop Hwr. rewrite (Update_locked _ _ _ E Hl). unfold locked_body.
  rewrite (bind_Ok _ _ _ _ _ Hload).
  erewrite bind_Ok; last first.
  { unfold call_PopulateFromSettings. rewrite Hpop. reflexivity. }
  unfold on_err. rewrite Hwr. by destruct r.
Qed.
End Further.

(** ** The further properties on the sample inputs *)

Lemma DeepCopyInto_overwrites_witness :
  mem world_two_objects !! 0 = Some sample_blob ∧
  1 < length (mem world_two_objects) ∧
  ∃ w',
    DeepCopyInto (Some 0) (Some 1) world_two_objects = (Ok tt, w') ∧
    mem w' !! 1 = Some sample_blob ∧ mem w' !! 0 = Some sample_blob ∧
    length (mem w') = length (mem world_two_objects) ∧
    (∀ l, l ≠ 1 → mem w' !! l = mem world_two_objects !! l) ∧
    disk w' = disk world_two_objects ∧ clock w' = clock world_two_objects ∧
    locks w' = locks world_two_objects ∧ trace w' = trace world_two_objects.
Proof.
  assert (Hlt : 1 < length (mem world_two_objects)) by (cbn; lia).
  split; [reflexivity|]. split; [exact Hlt|].
  exact (DeepCopyInto_overwrites world_two_objects 0 1 sample_blob eq_refl Hlt).
Defined.

Lemma DeepCopy_is_independent_witness :
  mem world_two_objects !! 0 = Some sample_blob ∧
  ∃ l' w',
    DeepCopy (Some 0) world_two_objects = (Ok (Some l'), w') ∧
    l' ≠ 0 ∧ mem world_two_objects !! l' = None ∧
    mem w' !! l' = Some sample_blob ∧
    (∀ k x, mem world_two_objects !! k = Some x → mem w' !! k = Some x) ∧
    length (mem w') = S (length (mem world_two_objects)) ∧
    disk w' = disk world_two_objects ∧ clock w' = clock world_two_objects ∧
    locks w' = locks world_two_objects ∧ trace w' = trace world_two_objects ∧
    (∃ w'', store (Some l') zero_internalExtension w' = (Ok tt, w'') ∧
            mem w'' !! 0 = Some sample_blob ∧
            mem w'' !! l' = Some zero_internalExtension) ∧
    (∃ w'', store (Some 0) zero_internalExtension w' = (Ok tt, w'') ∧
            mem w'' !! l' = Some sample_blob ∧
            mem w'' !! 0 = Some zero_internalExtension).
Proof.
  split; [reflexivity|].
  exact (DeepCopy_is_independent world_two_objects 0 sample_blob
           zero_internalExtension eq_refl).
Defined.

Lemma sample_stale_runs :
  PopulateFromSettings (H := sample_externals) settings_embed
    {| world := sample_world disk_all; doc := stale_doc |} = (Ok tt, after_stale).
Proof.
  exact (run_ok (PopulateFromSettings (H := sample_externals) settings_embed)
           {| world := sample_world disk_all; doc := stale_doc |} tt eq_refl).
Qed.

Lemma populate_replaces_entries_witness :
  delete "minikube" (api.Config.Clusters stale_doc)
    = delete "minikube" (api.Config.Clusters sample_doc) ∧
  delete "minikube" (api.Config.AuthInfos stale_doc)
    = delete "minikube" (api.Config.AuthInfos sample_doc) ∧
  delete "minikube" (api.Config.Contexts stale_doc)
    = delete "minikube" (api.Config.Contexts sample_doc) ∧
  api.Config.CurrentContext stale_doc = api.Config.CurrentContext sample_doc ∧
  PopulateFromSettings (H := sample_externals) settings_embed
    {| world := sample_world disk_all; doc := stale_doc |} = (Ok tt, after_stale) ∧
  PopulateFromSettings (H := sample_externals) settings_embed
    {| world := sample_world disk_all; doc := sample_doc |} = (Ok tt, after_stale).
Proof.
  assert (Hc : delete "minikube" (api.Config.Clusters stale_doc)
               = delete "minikube" (api.Config.Clusters sample_doc))
    by apply delete_insert_eq.
  assert (Hu : delete "minikube" (api.Config.AuthInfos stale_doc)
               = delete "minikube" (api.Config.AuthInfos sample_doc))
    by apply delete_insert_eq.
  assert (Hx : delete "minikube" (api.Config.Contexts stale_doc)
               = delete "minikube" (api.Config.Contexts sample_doc))
    by apply delete_insert_eq.
  do 3 (split; [assumption|]). split; [reflexivity|].
  split; [exact sample_stale_runs|].
  exact (populate_replaces_entries (H := sample_externals) settings_embed
           (sample_world disk_all) stale_doc sample_doc after_stale
           Hc Hu Hx eq_refl sample_stale_runs).
Defined.

Lemma sample_first_runs :
  PopulateFromSettings (H := sample_externals) settings_by_path state_bare
  = (Ok tt, after_first).
Proof.
  exact (run_ok (PopulateFromSettings (H := sample_externals) settings_by_path)
           state_bare tt eq_refl).
Qed.

Lemma sample_second_runs :
  PopulateFromSettings (H := sample_externals) settings_second after_first
  = (Ok tt, after_second).
Proof.
  exact (run_ok (PopulateFromSettings (H := sample_externals) settings_second)
           after_first tt eq_refl).
Qed.

Lemma populate_twice_coexist_witness :
  "minikube" ≠ "second" ∧
  PopulateFromSettings (H := sample_externals) settings_by_path state_bare
    = (Ok tt, after_first) ∧
  PopulateFromSettings (H := sample_externals) settings_second after_first
    = (Ok tt, after_second) ∧
  ∃ cl1 u1 ctx1 cl2 u2 ctx2,
    api.Config.Clusters (doc after_first) !! "minikube" = Some cl1 ∧
    api.Config.AuthInfos (doc after_first) !! "minikube" = Some u1 ∧
    api.Config.Contexts (doc after_first) !! "minikube" = Some ctx1 ∧
    api.Config.Clusters (doc after_second) !! "minikube" = Some cl1 ∧
    api.Config.AuthInfos (doc after_second) !! "minikube" = Some u1 ∧
    api.Config.Contexts (doc after_second) !! "minikube" = Some ctx1 ∧
    api.Config.Clusters (doc after_second) !! "second" = Some cl2 ∧
    api.Config.AuthInfos (doc after_second) !! "second" = Some u2 ∧
    api.Config.Contexts (doc after_second) !! "second" = Some ctx2 ∧
    (∀ l e, mem (world after_first) !! l = Some e →
            mem (world after_second) !! l = Some e) ∧
    api.Config.CurrentContext (doc after_second) =
      api.Config.CurrentContext (doc after_first).
Proof.
  assert (Hne : "minikube" ≠ "second") by discriminate.
  split; [exact Hne|]. split; [exact sample_first_runs|].
  split; [exact sample_second_runs|].
  exact (populate_twice_coexist (H := sample_externals) settings_by_path
           settings_second state_bare after_first after_second
           Hne sample_first_runs sample_second_runs).
Defined.

Lemma populate_entry_fields_witness :
  PopulateFromSettings (H := sample_externals) settings_by_path state_bare
    = (Ok tt, after_first) ∧
  ∃ cl u ctx,
    api.Config.Clusters (doc after_first) !! "minikube" = Some cl ∧
    api.Config.AuthInfos (doc after_first) !! "minikube" = Some u ∧
    api.Config.Contexts (doc after_first) !! "minikube" = Some ctx ∧
    api.Cluster.Server cl = "https://192.168.49.2:8443" ∧
    api.Context.Namespace ctx = "default" ∧
    api.Cluster.CertificateAuthorityData cl = [] ∧
    api.AuthInfo.ClientCertificateData u = [] ∧ api.AuthInfo.ClientKeyData u = [].
Proof.
  split; [exact sample_first_runs|].
  exact (populate_entry_fields (H := sample_externals) settings_by_path
           state_bare after_first sample_first_runs).
Defined.

Lemma update_without_path_panics_witness :
  kubeConfigFile settings_no_path = None ∧
  ∃ why, Update (H := sample_externals) settings_no_path world_no_key
         = (Panic why, world_no_key).
Proof.
  split; [reflexivity|].
  exact (update_without_path_panics (H := sample_externals) settings_no_path
           world_no_key eq_refl).
Defined.

Lemma update_lock_busy_witness :
  kubeConfigFile settings_embed = Some "/kube/config" ∧
  (sample_lock ∈ locks world_busy) ∧
  Update (H := sample_externals) settings_embed world_busy =
    (Fail (Wrapped ErrTimeout
             ("unable to acquire lock for " +:+ "{Name:/kube/config/settings.Update}")),
     world_busy).
Proof.
  assert (Hheld : sample_lock ∈ locks world_busy)
    by (unfold world_busy; cbn [locks]; apply elem_of_singleton; reflexivity).
  split; [reflexivity|]. split; [exact Hheld|].
  exact (update_lock_busy (H := sample_externals) settings_embed world_busy
           "/kube/config" eq_refl Hheld).
Defined.

Lemma update_releases_lock_witness :
  kubeConfigFile settings_embed = Some "/kube/config" ∧
  (sample_lock ∉ locks world_no_key) ∧
  ∃ mid,
    trace (Update (H := sample_externals) settings_embed world_no_key).2 =
      trace world_no_key ++ [EvAcquire sample_lock] ++ mid ++ [EvRelease sample_lock] ∧
    Forall (λ ev, ¬ lock_event ev) mid ∧
    locks (Update (H := sample_externals) settings_embed world_no_key).2
      = locks world_no_key.
Proof.
  assert (Hfree : sample_lock ∉ locks world_no_key) by apply not_elem_of_empty.
  split; [reflexivity|]. split; [exact Hfree|].
  exact (update_releases_lock (H := sample_externals) settings_embed world_no_key
           "/kube/config" eq_refl Hfree).
Defined.

Lemma sample_no_dir_runs :
  PopulateFromSettings (H := sample_externals) settings_by_path
    {| world := world_no_dir_loaded; doc := api.NewConfig |} = (Ok tt, after_no_dir).
Proof.
  exact (run_ok (PopulateFromSettings (H := sample_externals) settings_by_path)
           {| world := world_no_dir_loaded; doc := api.NewConfig |} tt eq_refl).
Qed.

Lemma sample_no_dir_write :
  writeToFile (H := sample_externals) (doc after_no_dir) "/kube/config"
    (world after_no_dir)
  = (Fail (PathError "open" "/kube/config" ENOENT),
     log (EvWriteFile "/kube/config") (world after_no_dir)).
Proof.
  apply writeToFile_denied.
  destruct (populate_end_disk _ _ _ _ (populate_inv _ _ _ _ sample_no_dir_runs))
    as (-> & _). reflexivity.
Qed.

Lemma update_persists_projection_witness :
  kubeConfigFile settings_by_path = Some "/kube/config" ∧
  (sample_lock ∉ locks world_no_dir) ∧
  readOrNew (H := sample_externals) "/kube/config" (acquired sample_lock world_no_dir)
    = (Ok api.NewConfig, world_no_dir_loaded) ∧
  PopulateFromSettings (H := sample_externals) settings_by_path
    {| world := world_no_dir_loaded; doc := api.NewConfig |} = (Ok tt, after_no_dir) ∧
  writeToFile (H := sample_externals) (doc after_no_dir) "/kube/config"
    (world after_no_dir)
  = (Fail (PathError "open" "/kube/config" ENOENT),
     log (EvWriteFile "/kube/config") (world after_no_dir)) ∧
  Update (H := sample_externals) settings_by_path world_no_dir =
    (Fail (Wrapped (PathError "open" "/kube/config" ENOENT) "writing kubeconfig"),
     released sample_lock (log (EvWriteFile "/kube/config") (world after_no_dir))).
Proof.
  assert (Hfree : sample_lock ∉ locks world_no_dir) by apply not_elem_of_empty.
  assert (Hload : readOrNew (H := sample_externals) "/kube/config"
                    (acquired sample_lock world_no_dir)
                  = (Ok api.NewConfig, world_no_dir_loaded)) by reflexivity.
  split; [reflexivity|]. split; [exact Hfree|]. split; [exact Hload|].
  split; [exact sample_no_dir_runs|]. split; [exact sample_no_dir_write|].
  exact (update_persists_projection (H := sample_externals) settings_by_path
           world_no_dir "/kube/config" api.NewConfig world_no_dir_loaded after_no_dir
           (Fail (PathError "open" "/kube/config" ENOENT))
           (log (EvWriteFile "/kube/config") (world after_no_dir))
           eq_refl Hfree Hload sample_no_dir_runs sample_no_dir_write).
Defined.
